(** * Request relay and form client of the image-generation app

    A shallow embedding of the Express server (the four [/api/*] routes and
    their error mapping) and of the browser form's submit handler, followed
    by the properties of the fallback/retry loop, of the image extraction
    and of the error mapping.

    Conventions.
    - A JavaScript string is a [string]; one [ascii] stands for one code
      unit (code units below 256).
    - [undefined] properties are [option] fields of the records below; a
      value that went through JSON is a [jsval].
    - The provider SDK and [fetch] are parameters of the [Relay] section:
      a call takes the state of the outside world and returns an outcome
      and the next state.  Every outbound call and every timer is recorded
      in the trace of [event]s a handler returns.
    - [console.log] output is not part of the model. *)

From Stdlib Require Import String Ascii List ZArith Lia Bool Arith DecimalString.
Import ListNotations.
Open Scope string_scope.
Set Warnings "-register-all".

(** ** JavaScript strings *)

Module Js.

(** White space and line terminators removed by [String.prototype.trim],
    restricted to code units below 256: TAB, LF, VT, FF, CR, SP, NBSP. *)
Definition is_white (c : ascii) : bool :=
  let n := nat_of_ascii c in
  ((n =? 9) || (n =? 10) || (n =? 11) || (n =? 12) || (n =? 13)
   || (n =? 32) || (n =? 160))%nat.

Fixpoint trimStart (s : string) : string :=
  match s with
  | EmptyString => EmptyString
  | String c t => if is_white c then trimStart t else s
  end.

Fixpoint rev_append (s acc : string) : string :=
  match s with
  | EmptyString => acc
  | String c t => rev_append t (String c acc)
  end.

Definition rev (s : string) : string := rev_append s EmptyString.

Definition trimEnd (s : string) : string := rev (trimStart (rev s)).

(** [s.trim()] *)
Definition trim (s : string) : string := trimEnd (trimStart s).

(** [s.startsWith(p)] *)
Definition startsWith (p s : string) : bool := String.prefix p s.

(** [s.includes(needle)] *)
Fixpoint includes (needle s : string) : bool :=
  String.prefix needle s
  || match s with
     | EmptyString => false
     | String _ t => includes needle t
     end.

(** [s.substring(0, n)] *)
Definition substring0 (n : nat) (s : string) : string := String.substring 0 n s.

(** A string is truthy when it is not empty. *)
Definition nonempty (s : string) : bool :=
  match s with EmptyString => false | String _ _ => true end.

End Js.

(** ** Values that went through JSON *)

Inductive jsval : Type :=
| JUndefined
| JNull
| JBool (b : bool)
| JNum (z : Z)
| JStr (s : string)
| JArr (items : list jsval)
| JObj (fields : list (string * jsval)).

(** ToBoolean.  Numbers are integers here, so only [0] is falsy. *)
Definition truthy (v : jsval) : bool :=
  match v with
  | JUndefined | JNull => false
  | JBool b => b
  | JNum z => negb (z =? 0)%Z
  | JStr s => Js.nonempty s
  | JArr _ | JObj _ => true
  end.

Fixpoint lookup (k : string) (fields : list (string * jsval)) : option jsval :=
  match fields with
  | [] => None
  | (k', v) :: rest => if String.eqb k k' then Some v else lookup k rest
  end.

(** [v.k] for a [v] that is neither [null] nor [undefined] (the caller
    raises the TypeError for those).  Own properties only; [length] of
    strings and arrays is the one built-in property the code reads. *)
Definition prop (k : string) (v : jsval) : jsval :=
  match v with
  | JObj fields => match lookup k fields with Some x => x | None => JUndefined end
  | JArr items => if String.eqb k "length" then JNum (Z.of_nat (List.length items)) else JUndefined
  | JStr s => if String.eqb k "length" then JNum (Z.of_nat (String.length s)) else JUndefined
  | _ => JUndefined
  end.

Definition nullish (v : jsval) : bool :=
  match v with JUndefined | JNull => true | _ => false end.

(** [a || b] *)
Definition or_else (a b : jsval) : jsval := if truthy a then a else b.

Definition string_of_Z (z : Z) : string := NilZero.string_of_int (Z.to_int z).

(** ToString, as [new Error(v)] and template literals apply it.  An array
    prints its elements separated by commas, [null] and [undefined]
    elements as the empty string.  A number prints as its digits, which is
    what JavaScript does for integers of magnitude below 10^21. *)
Fixpoint to_string (v : jsval) : string :=
  match v with
  | JUndefined => "undefined"
  | JNull => "null"
  | JBool true => "true"
  | JBool false => "false"
  | JNum z => string_of_Z z
  | JStr s => s
  | JArr items =>
      (fix join (l : list jsval) : string :=
         match l with
         | [] => ""
         | [x] => if nullish x then "" else to_string x
         | x :: rest => (if nullish x then "" else to_string x) ++ "," ++ join rest
         end) items
  | JObj _ => "[object Object]"
  end.

Definition of_option_string (o : option string) : jsval :=
  match o with Some s => JStr s | None => JUndefined end.

Definition of_option_Z (o : option Z) : jsval :=
  match o with Some z => JNum z | None => JUndefined end.

(** ** Errors *)

(** One entry of [error.errorDetails]: its ["@type"] and [retryDelay]. *)
Record detail : Type := mkDetail {
  at_type : option string;
  retryDelay : option string
}.

(** What the handlers read of a thrown value. *)
Record error : Type := mkError {
  status : option Z;
  message : option string;
  errorDetails : option (list detail)
}.

(** [new Error(msg)], and the TypeErrors the engine raises. *)
Definition Error (msg : string) : error := mkError None (Some msg) None.

(** The TypeError of [v.k] for a [v] that is [null] or [undefined]. *)
Definition cannot_read (v : jsval) (k : string) : error :=
  Error ("Cannot read properties of " ++ to_string v ++ " (reading '" ++ k ++ "')").

(** [error.message?.includes(s)] as a condition. *)
Definition message_includes (s : string) (e : error) : bool :=
  match message e with
  | Some m => Js.includes s m
  | None => false
  end.

(** [error.status === n] *)
Definition status_is (n : Z) (e : error) : bool :=
  match status e with
  | Some z => (z =? n)%Z
  | None => false
  end.

Definition is_quota (e : error) : bool :=
  status_is 429 e || message_includes "quota" e || message_includes "Quota" e.

Definition is_not_found (e : error) : bool :=
  status_is 404 e || message_includes "not found" e || message_includes "Not Found" e.

Definition is_auth (e : error) : bool :=
  status_is 401 e || message_includes "API key" e.

(** The sum the routes compute in: a value or a thrown error. *)
Inductive result (A : Type) : Type :=
| Ok (a : A)
| Throw (e : error).
Arguments Ok {A} a.
Arguments Throw {A} e.

Definition bind {A B : Type} (r : result A) (k : A -> result B) : result B :=
  match r with
  | Ok a => k a
  | Throw e => Throw e
  end.

Notation "x <- r ;; k" := (bind r (fun x => k))
  (at level 61, r at next level, right associativity).

(** ** HTTP responses *)

Record http_response : Type := mkResponse {
  code : Z;
  body : list (string * jsval)
}.

(** [res.status(c).json(b)] and [res.json(b)]. *)
Definition status_json (c : Z) (b : list (string * jsval)) : http_response := mkResponse c b.
Definition json (b : list (string * jsval)) : http_response := mkResponse 200 b.

Definition field (k : string) (r : http_response) : option jsval := lookup k (body r).

(** ** What the provider returns *)

Record inline_data : Type := mkInline {
  mimeType : option string;
  data : option string
}.

Record part : Type := mkPart {
  inlineData : option inline_data;
  part_text : option string
}.

Record content : Type := mkContent {
  parts : option (list part)
}.

Record candidate : Type := mkCandidate {
  cand_content : option content
}.

(** [result.response]: the [candidates] array and what the [text()]
    method does when it is called. *)
Record gen_response : Type := mkGen {
  candidates : option (list candidate);
  text : result string
}.

(** One [getGenerativeModel(..).generateContent(..)]: it throws, or it
    returns a result whose [response] property may be undefined. *)
Inductive outcome : Type :=
| Returns (r : option gen_response)
| Throws (e : error).

(** One [fetch(url)] followed by [response.json()]: either step throws, or
    the pair [response.ok], parsed body. *)
Inductive fetch_outcome : Type :=
| FetchThrows (e : error)
| FetchReturns (ok : bool) (parsed : jsval).

Inductive event : Type :=
| EvGenerate (model prompt : string) (o : outcome)
| EvFetch (url : string)
| EvSleep (ms : Z).

(** ** Error mapping of POST /api/generate (the outer [catch]) *)

Definition is_retry_info (d : detail) : bool :=
  match at_type d with
  | Some t => Js.includes "RetryInfo" t
  | None => false
  end.

(** [error.errorDetails?.find(d => d['@type']?.includes('RetryInfo'))?.retryDelay || '16'] *)
Definition retryAfter (e : error) : string :=
  match errorDetails e with
  | None => "16"
  | Some ds =>
      match find is_retry_info ds with
      | None => "16"
      | Some d =>
          match retryDelay d with
          | Some s => if Js.nonempty s then s else "16"
          | None => "16"
          end
      end
  end.

Definition handle_error (e : error) : http_response :=
  if is_not_found e then
    status_json 404
      [ ("error", JStr "Model not found");
        ("message", JStr "The requested Gemini model is not available. Tried multiple models but none were found.");
        ("suggestion", JStr "Please check your API key permissions and available models. Visit /api/models for debugging info.");
        ("details", of_option_string (message e)) ]
  else if is_quota e then
    status_json 429
      [ ("error", JStr "API quota exceeded");
        ("message", JStr "You have exceeded your current quota. Please wait a moment and try again.");
        ("retryAfter", JStr (retryAfter e ++ " seconds"));
        ("details", of_option_string (message e)) ]
  else if is_auth e then
    status_json 401
      [ ("error", JStr "Invalid API key");
        ("message", JStr "Please check your GEMINI_API_KEY environment variable.") ]
  else
    status_json 500
      [ ("error", JStr "Failed to generate image");
        ("message", of_option_string (message e)) ].

(** ** From a provider response to the HTTP response *)

(** The test of the [for (const part of parts)] loop. *)
Definition is_image_part (p : part) : bool :=
  match inlineData p with
  | Some d =>
      match mimeType d with
      | Some m => Js.nonempty m && Js.startsWith "image/" m
      | None => false
      end
  | None => false
  end.

(** The loop itself: [imageData] after it ([None] for [null] and for an
    undefined [data]). *)
Fixpoint find_imageData (ps : list part) : option string :=
  match ps with
  | [] => None
  | p :: rest =>
      if is_image_part p then
        match inlineData p with
        | Some d => data d
        | None => None
        end
      else find_imageData rest
  end.

(** [p.inlineData?.mimeType] as a condition. *)
Definition declares_mime (p : part) : bool :=
  match inlineData p with
  | Some d =>
      match mimeType d with
      | Some m => Js.nonempty m
      | None => false
      end
  | None => false
  end.

(** [parts.find(p => p.inlineData?.mimeType)?.inlineData?.mimeType || 'image/png'] *)
Definition pick_mimeType (ps : list part) : string :=
  match find declares_mime ps with
  | Some p =>
      match inlineData p with
      | Some d =>
          match mimeType d with
          | Some m => if Js.nonempty m then m else "image/png"
          | None => "image/png"
          end
      | None => "image/png"
      end
  | None => "image/png"
  end.

Definition unsupported_message : string :=
  "The selected Gemini model returned text instead of an image. Gemini Flash 2.5 (NanoBanana) may require a different API endpoint or method for image generation, or may not be available on your current plan.".

Definition unsupported_suggestion : string :=
  "Please check if Gemini Flash 2.5 has image generation capabilities on your API plan, or consider using a dedicated image generation API.".

(** The [if (!imageData)] branch: [response.text()] is called and its
    first 500 characters are sent with status 501. *)
Definition text_instead (r : gen_response) : result http_response :=
  t <- text r ;;
  Ok (status_json 501
        [ ("error", JStr "Model does not support direct image generation");
          ("message", JStr unsupported_message);
          ("response", JStr (Js.substring0 500 t));
          ("suggestion", JStr unsupported_suggestion) ]).

(** Lines 281-323: everything after the fallback loop has produced a
    response. *)
Definition respond (prompt : string) (r : gen_response) : result http_response :=
  let cands := match candidates r with Some l => l | None => [] end in
  match cands with
  | [] => Throw (Error "No response from Gemini API")
  | c :: _ =>
      match cand_content c with
      | None => Throw (Error "Cannot read properties of undefined (reading 'parts')")
      | Some ct =>
          let ps := match parts ct with Some l => l | None => [] end in
          match find_imageData ps with
          | Some (String _ _ as d) =>
              Ok (json [ ("success", JBool true);
                         ("image", JStr ("data:" ++ pick_mimeType ps ++ ";base64," ++ d));
                         ("prompt", JStr prompt) ])
          | Some EmptyString | None => text_instead r
          end
      end
  end.

(** ** The fallback loop *)

Definition modelNames : list string :=
  [ "gemini-2.5-flash-image-preview";
    "gemini-2.0-flash-exp";
    "gemini-2.5-flash-image";
    "gemini-1.5-flash";
    "gemini-1.5-pro";
    "gemini-pro" ].

Definition maxRetries : nat := 2.

(** [retryDelay * 1000], the argument of [setTimeout]. *)
Definition retryDelay_ms : Z := 5 * 1000.

(** The four [let] variables of the handler. *)
Record loop_state : Type := mkLoop {
  lastError : option error;
  response : option gen_response;
  successfulModel : option string;
  quotaError : option error
}.

Definition initial : loop_state := mkLoop None None None None.

Definition set_lastError (e : error) (st : loop_state) : loop_state :=
  mkLoop (Some e) (response st) (successfulModel st) (quotaError st).

Definition set_response (r : option gen_response) (st : loop_state) : loop_state :=
  mkLoop (lastError st) r (successfulModel st) (quotaError st).

Definition set_successfulModel (m : string) (st : loop_state) : loop_state :=
  mkLoop (lastError st) (response st) (Some m) (quotaError st).

(** [if (!quotaError) quotaError = error] *)
Definition note_quotaError (e : error) (st : loop_state) : loop_state :=
  match quotaError st with
  | Some _ => st
  | None => mkLoop (lastError st) (response st) (successfulModel st) (Some e)
  end.

Definition is_some {A : Type} (o : option A) : bool :=
  match o with Some _ => true | None => false end.

Section Relay.

(** The outside world: the provider behind the SDK and behind [fetch]. *)
Variable World : Type.
Variable generateContent : string -> string -> World -> outcome * World.
Variable fetch : string -> World -> fetch_outcome * World.

(** [process.env.GEMINI_API_KEY] *)
Variable apiKey : option string.

(** [!!apiKey]; [genAI] is non-null exactly when this holds. *)
Definition keyLoaded : bool :=
  match apiKey with
  | Some k => Js.nonempty k
  | None => false
  end.

(** The [while (retryCount <= maxRetries)] loop for one model.  [fuel]
    bounds the number of iterations; [None] is a loop still running when
    the fuel is spent. *)
Fixpoint retry_loop (fuel : nat) (modelName prompt : string) (retryCount : nat)
    (st : loop_state) (w : World) : option (loop_state * World * list event) :=
  match fuel with
  | O => None
  | S fuel' =>
      if (retryCount <=? maxRetries)%nat then
        let imageGenerationPrompt := "Generate an image: " ++ prompt in
        let '(o, w1) := generateContent modelName imageGenerationPrompt w in
        let ev := EvGenerate modelName imageGenerationPrompt o in
        match o with
        | Returns r =>
            let st1 := set_response r st in
            if is_some r then
              Some (set_successfulModel modelName st1, w1, [ev])
            else
              match retry_loop fuel' modelName prompt retryCount st1 w1 with
              | Some (st2, w2, tr) => Some (st2, w2, ev :: tr)
              | None => None
              end
        | Throws e =>
            if is_quota e then
              let st1 := note_quotaError e st in
              if (retryCount <? maxRetries)%nat then
                match retry_loop fuel' modelName prompt (S retryCount) st1 w1 with
                | Some (st2, w2, tr) => Some (st2, w2, ev :: EvSleep retryDelay_ms :: tr)
                | None => None
                end
              else Some (set_lastError e st1, w1, [ev])
            else if is_not_found e then Some (set_lastError e st, w1, [ev])
            else if status_is 400 e then Some (set_lastError e st, w1, [ev])
            else Some (set_lastError e st, w1, [ev])
        end
      else Some (st, w, [])
  end.

(** The [for (const modelName of modelNames)] loop. *)
Fixpoint try_models (fuel : nat) (names : list string) (prompt : string)
    (st : loop_state) (w : World) : option (loop_state * World * list event) :=
  match names with
  | [] => Some (st, w, [])
  | modelName :: rest =>
      match retry_loop fuel modelName prompt 0 st w with
      | None => None
      | Some (st1, w1, tr1) =>
          if is_some (response st1) then Some (st1, w1, tr1)
          else
            match try_models fuel rest prompt st1 w1 with
            | Some (st2, w2, tr2) => Some (st2, w2, (tr1 ++ tr2)%list)
            | None => None
            end
      end
  end.

Definition no_model_message : string :=
  "No available model found. Please check your API key and available models.".

(** Lines 272-279: what is thrown when the loop ends without a response. *)
Definition after_loop (st : loop_state) : result gen_response :=
  match response st with
  | Some r => Ok r
  | None =>
      match quotaError st, lastError st with
      | Some q, None => Throw q
      | _, Some e => Throw e
      | None, None => Throw (Error no_model_message)
      end
  end.

(** The body of the [try] of POST /api/generate, for the parsed request
    body [req_body]. *)
Definition generate_try (fuel : nat) (req_body : jsval) (w : World)
    : option (result http_response * World * list event) :=
  if nullish req_body then
    Some (Throw (Error ("Cannot destructure property 'prompt' of 'req.body' as it is "
                        ++ to_string req_body ++ ".")), w, [])
  else
    let prompt := prop "prompt" req_body in
    if negb (truthy prompt) then
      Some (Ok (status_json 400 [ ("error", JStr "Prompt is required") ]), w, [])
    else
      match prompt with
      | JStr p =>
          if (String.length (Js.trim p) =? 0)%nat then
            Some (Ok (status_json 400 [ ("error", JStr "Prompt is required") ]), w, [])
          else if negb keyLoaded then
            Some (Ok (status_json 500
                        [ ("error", JStr "Gemini API key not configured. Please set GEMINI_API_KEY environment variable.") ]),
                  w, [])
          else
            match try_models fuel modelNames p initial w with
            | None => None
            | Some (st, w1, tr) =>
                Some (r <- after_loop st ;; respond p r, w1, tr)
            end
      | _ => Some (Throw (Error "prompt.trim is not a function"), w, [])
      end.

(** POST /api/generate: the [try] and its [catch]. *)
Definition generate (fuel : nat) (req_body : jsval) (w : World)
    : option (http_response * World * list event) :=
  match generate_try fuel req_body w with
  | None => None
  | Some (Ok res, w1, tr) => Some (res, w1, tr)
  | Some (Throw e, w1, tr) => Some (handle_error e, w1, tr)
  end.

(** *** GET /api/list-models *)

Definition list_models_url (k : string) : string :=
  "https://generativelanguage.googleapis.com/v1beta/models?key=" ++ k.

(** The [try] of the route once the key is known to be loaded. *)
Definition list_models_try (k : string) (w : World) : result http_response * World * list event :=
  let url := list_models_url k in
  let '(o, w1) := fetch url w in
  (match o with
   | FetchThrows e => Throw e
   | FetchReturns ok parsed =>
       if negb ok then
         if nullish parsed then Throw (cannot_read parsed "error")
         else
           let err := prop "error" parsed in
           let msg := if nullish err then JUndefined else prop "message" err in
           Throw (Error (to_string (or_else msg (JStr "Failed to list models"))))
       else if nullish parsed then Throw (cannot_read parsed "models")
       else
         let models := prop "models" parsed in
         let len := if nullish models then JUndefined else prop "length" models in
         Ok (json [ ("success", JBool true);
                    ("models", or_else models (JArr []));
                    ("totalModels", or_else len (JNum 0)) ])
   end, w1, [EvFetch url]).

Definition list_models (w : World) : http_response * World * list event :=
  match apiKey with
  | Some k =>
      if negb keyLoaded then
        (status_json 500 [ ("error", JStr "Gemini API key not configured");
                           ("keyLoaded", JBool keyLoaded) ], w, [])
      else
        let '(r, w1, tr) := list_models_try k w in
        match r with
        | Ok res => (res, w1, tr)
        | Throw e =>
            (status_json 500 [ ("error", JStr "Failed to list models");
                               ("message", of_option_string (message e));
                               ("keyLoaded", JBool keyLoaded) ], w1, tr)
        end
  | None =>
      (status_json 500 [ ("error", JStr "Gemini API key not configured");
                         ("keyLoaded", JBool keyLoaded) ], w, [])
  end.

(** *** GET /api/test-key *)

Definition testModelNames : list string :=
  [ "gemini-2.5-flash-image-preview";
    "gemini";
    "gemini-pro";
    "gemini-1.0-pro";
    "gemini-1.5-pro";
    "gemini-1.5-flash";
    "gemini-2.0-flash-exp" ].

Definition detail_to_js (d : detail) : jsval :=
  JObj [ ("@type", of_option_string (at_type d));
         ("retryDelay", of_option_string (retryDelay d)) ].

(** The [for] loop of the route: the response of the first model that
    answers, or [lastError] when none does. *)
Fixpoint test_models (k : string) (names : list string) (lastErr : option error) (w : World)
    : (http_response + option error) * World * list event :=
  match names with
  | [] => (inr lastErr, w, [])
  | modelName :: rest =>
      let '(o, w1) := generateContent modelName "Say hello" w in
      let ev := EvGenerate modelName "Say hello" o in
      let attempt :=
        match o with
        | Throws e => Throw e
        | Returns None => Throw (Error "Cannot read properties of undefined (reading 'text')")
        | Returns (Some r) => text r
        end in
      match attempt with
      | Ok t =>
          (inl (json [ ("success", JBool true);
                       ("message", JStr "API key is working!");
                       ("workingModel", JStr modelName);
                       ("testResponse", JStr t);
                       ("keyLoaded", JBool true);
                       ("keyPreview", JStr (Js.substring0 10 k ++ "...")) ]), w1, [ev])
      | Throw e =>
          let '(r, w2, tr) := test_models k rest (Some e) w1 in
          (r, w2, ev :: tr)
      end
  end.

Definition keyLength : Z :=
  match apiKey with
  | Some k => if Js.nonempty k then Z.of_nat (String.length k) else 0
  | None => 0
  end.

Definition test_key_failed (e : error) : http_response :=
  status_json 500
    [ ("error", JStr "API key test failed");
      ("message", of_option_string (message e));
      ("status", of_option_Z (status e));
      ("details", match errorDetails e with
                  | Some ds => JArr (map detail_to_js ds)
                  | None => JStr "No additional details"
                  end);
      ("keyLoaded", JBool keyLoaded);
      ("suggestion", JStr "Try visiting /api/list-models to see available models") ].

Definition test_key (w : World) : http_response * World * list event :=
  match apiKey with
  | Some k =>
      if negb keyLoaded then
        (status_json 500 [ ("error", JStr "Gemini API key not configured");
                           ("keyLoaded", JBool keyLoaded);
                           ("keyLength", JNum keyLength) ], w, [])
      else
        let '(r, w1, tr) := test_models k testModelNames None w in
        match r with
        | inl res => (res, w1, tr)
        | inr (Some e) => (test_key_failed e, w1, tr)
        | inr None => (test_key_failed (Error "No working models found"), w1, tr)
        end
  | None =>
      (status_json 500 [ ("error", JStr "Gemini API key not configured");
                         ("keyLoaded", JBool keyLoaded);
                         ("keyLength", JNum keyLength) ], w, [])
  end.

(** *** GET /api/models *)

Definition debugModelNames : list string :=
  [ "gemini-2.0-flash-exp";
    "gemini-1.5-flash";
    "gemini-1.5-pro";
    "gemini-pro";
    "gemini-1.0-pro";
    "gemini-1.5-flash-latest";
    "gemini-1.5-pro-latest" ].

(** [getGenerativeModel] builds a handle and contacts nobody, so the route
    leaves the world alone. *)
Definition models (w : World) : http_response * World * list event :=
  if negb keyLoaded then
    (status_json 500 [ ("error", JStr "Gemini API key not configured") ], w, [])
  else
    let availableModels :=
      map (fun modelName => JObj [ ("name", JStr modelName); ("status", JStr "testing") ])
          debugModelNames in
    (json [ ("message", JStr "Test models in /api/generate endpoint");
            ("modelsToTry", JArr (map JStr debugModelNames));
            ("availableModels",
               if (0 <? List.length availableModels)%nat then JArr availableModels
               else JStr "No models tested yet") ], w, []).

End Relay.

(** ** The form client *)

(** The properties of the page the submit handler reads and writes. *)
Record dom : Type := mkDom {
  promptInput_value : string;
  generateBtn_disabled : bool;
  btn_text_display : string;
  btn_loader_display : string;
  resultContainer_display : string;
  errorMessage_display : string;
  errorMessage_textContent : string;
  generatedImage_src : string;
  promptDisplay_textContent : string
}.

Definition showError (msg : string) (d : dom) : dom :=
  mkDom (promptInput_value d) (generateBtn_disabled d) (btn_text_display d)
        (btn_loader_display d) (resultContainer_display d)
        "block" msg (generatedImage_src d) (promptDisplay_textContent d).

(** Lines 20-27: hide the previous result and error, show the loading state. *)
Definition show_loading (d : dom) : dom :=
  mkDom (promptInput_value d) true "none" "inline" "none" "none"
        (errorMessage_textContent d) (generatedImage_src d) (promptDisplay_textContent d).

(** The [finally] block. *)
Definition reset_button (d : dom) : dom :=
  mkDom (promptInput_value d) false "inline" "none" (resultContainer_display d)
        (errorMessage_display d) (errorMessage_textContent d)
        (generatedImage_src d) (promptDisplay_textContent d).

Definition set_src (src : string) (d : dom) : dom :=
  mkDom (promptInput_value d) (generateBtn_disabled d) (btn_text_display d)
        (btn_loader_display d) (resultContainer_display d)
        (errorMessage_display d) (errorMessage_textContent d)
        src (promptDisplay_textContent d).

Definition show_result (shown_prompt : string) (d : dom) : dom :=
  mkDom (promptInput_value d) (generateBtn_disabled d) (btn_text_display d)
        (btn_loader_display d) "block"
        (errorMessage_display d) (errorMessage_textContent d)
        (generatedImage_src d) shown_prompt.

Section Client.

Variable World : Type.

(** [fetch('/api/generate', {method: 'POST', ..., body})] followed by
    [response.json()]. *)
Variable post : string -> jsval -> World -> fetch_outcome * World.

(** The [try] block once the request has settled with [o]. *)
Definition render (prompt : string) (o : fetch_outcome) (d : dom) : result dom :=
  match o with
  | FetchThrows e => Throw e
  | FetchReturns ok parsed =>
      if negb ok then
        if nullish parsed then Throw (cannot_read parsed "error")
        else
          Throw (Error (to_string (or_else (prop "error" parsed) (JStr "Failed to generate image"))))
      else if nullish parsed then Throw (cannot_read parsed "image")
      else
        let image := prop "image" parsed in
        if truthy image then
          let d1 :=
            match image with
            | JStr src => set_src src d
            | _ =>
                if truthy (prop "url" image) then set_src (to_string (prop "url" image)) d
                else if truthy (prop "data" image) then
                  set_src ("data:image/png;base64," ++ to_string (prop "data" image)) d
                else d
            end in
          Ok (show_result (to_string (or_else (prop "prompt" parsed) (JStr prompt))) d1)
        else Throw (Error "No image data received")
  end.

(** The submit listener. *)
Definition submit (d : dom) (w : World) : dom * World :=
  let prompt := Js.trim (promptInput_value d) in
  if negb (Js.nonempty prompt) then (showError "Please enter a prompt" d, w)
  else
    let d1 := show_loading d in
    let '(o, w1) := post "/api/generate" (JObj [ ("prompt", JStr prompt) ]) w in
    let d2 :=
      match render prompt o d1 with
      | Ok d' => d'
      | Throw e =>
          let msg := match message e with
                     | Some m => if Js.nonempty m then m else "An error occurred while generating the image"
                     | None => "An error occurred while generating the image"
                     end in
          showError msg d1
      end in
    (reset_button d2, w1).

End Client.

Arguments retry_loop {World} generateContent fuel modelName prompt retryCount st w.
Arguments try_models {World} generateContent fuel names prompt st w.
Arguments generate_try {World} generateContent apiKey fuel req_body w.
Arguments generate {World} generateContent apiKey fuel req_body w.
Arguments list_models {World} fetch apiKey w.
Arguments test_key {World} generateContent apiKey w.
Arguments models {World} apiKey w.
Arguments submit {World} post d w.

(** ** Reading a trace *)

Definition is_sleep (ev : event) : bool :=
  match ev with EvSleep _ => true | _ => false end.

Definition is_call (ev : event) : bool :=
  match ev with EvGenerate _ _ _ => true | _ => false end.

Definition is_failure (ev : event) : bool :=
  match ev with EvGenerate _ _ (Throws _) => true | _ => false end.

(** The errors the provider threw during a request, oldest first. *)
Fixpoint thrown (tr : list event) : list error :=
  match tr with
  | [] => []
  | EvGenerate _ _ (Throws e) :: rest => e :: thrown rest
  | _ :: rest => thrown rest
  end.

Definition last_opt {A : Type} (l : list A) : option A :=
  match List.rev l with
  | x :: _ => Some x
  | [] => None
  end.

(** The traces the retry loop of candidate [m] can leave when it is
    entered with [retryCount = rc]: an answer ends it; an undefined
    response repeats the call; a quota error is followed by the delay and a
    further attempt while [rc < maxRetries], and ends it otherwise; any
    other error ends it. *)
Inductive attempts (m : string) : nat -> list event -> Prop :=
| attempts_answer rc t r :
    attempts m rc [EvGenerate m t (Returns (Some r))]
| attempts_undefined rc t tr :
    attempts m rc tr ->
    attempts m rc (EvGenerate m t (Returns None) :: tr)
| attempts_retry rc t e tr :
    is_quota e = true -> (rc < maxRetries)%nat ->
    attempts m (S rc) tr ->
    attempts m rc (EvGenerate m t (Throws e) :: EvSleep retryDelay_ms :: tr)
| attempts_exhausted rc t e :
    is_quota e = true -> (maxRetries <= rc)%nat ->
    attempts m rc [EvGenerate m t (Throws e)]
| attempts_other rc t e :
    is_quota e = false ->
    attempts m rc [EvGenerate m t (Throws e)].

(** What can be observed of a run of a handler: the reply and the trace,
    without the state the world is left in. *)
Definition observable {World : Type} (run : option (http_response * World * list event))
    : option (http_response * list event) :=
  match run with
  | Some (res, _, tr) => Some (res, tr)
  | None => None
  end.

(** The same for a loop, whose result is the four variables. *)
Definition loop_observable {World : Type} (run : option (loop_state * World * list event))
    : option (loop_state * list event) :=
  match run with
  | Some (st, _, tr) => Some (st, tr)
  | None => None
  end.

(** A provider that hands back a response object whenever it returns. *)
Definition always_responds {World : Type}
    (generateContent : string -> string -> World -> outcome * World) : Prop :=
  forall m t w, fst (generateContent m t w) <> Returns None.

Definition is_answer (ev : event) : bool :=
  match ev with EvGenerate _ _ (Returns (Some _)) => true | _ => false end.

(** The rule of the specification for the error to surface when no
    candidate answered, read on the errors seen, oldest first: the quota
    error when every error seen is a quota error, otherwise the last error
    seen that is not a quota error, and the generic error when none was
    seen. *)
Definition surfaced_by_spec (errs : list error) : error :=
  match errs with
  | [] => Error no_model_message
  | first :: _ =>
      match last_opt (filter (fun e => negb (is_quota e)) errs) with
      | Some e => e
      | None => first
      end
  end.

(** A provider without memory: what a call yields is a function of the
    model and of the text sent. *)
Definition stateless {World : Type}
    (generateContent : string -> string -> World -> outcome * World)
    (f : string -> string -> outcome) : Prop :=
  forall m t w, fst (generateContent m t w) = f m t.

(** ** The request a handler accepts *)

(** The parsed body carries a string prompt that is not blank. *)
Definition accepted_prompt (req_body : jsval) (p : string) : Prop :=
  nullish req_body = false /\ prop "prompt" req_body = JStr p /\ Js.trim p <> "".

(** The fallback loop ends with the response [r] of some candidate. *)
Definition loop_answers {World : Type} (generateContent : string -> string -> World -> outcome * World)
    (fuel : nat) (p : string) (w : World) (r : gen_response) (w1 : World) (tr : list event) : Prop :=
  exists st, try_models generateContent fuel modelNames p initial w = Some (st, w1, tr)
             /\ response st = Some r.

(** Every character of the string is white space (so also the empty
    string). *)
Fixpoint whitespace_only (s : string) : bool :=
  match s with
  | EmptyString => true
  | String c t => Js.is_white c && whitespace_only t
  end.

(** The prompt of the request is missing, [null], or a blank string. *)
Definition prompt_missing_or_blank (req_body : jsval) : Prop :=
  prop "prompt" req_body = JUndefined
  \/ prop "prompt" req_body = JNull
  \/ exists s, prop "prompt" req_body = JStr s /\ whitespace_only s = true.

(** ** Test doubles *)

Module Stub.

(** A provider without state: the outcome depends on the model alone. *)
Definition by_model (f : string -> outcome) : string -> string -> unit -> outcome * unit :=
  fun modelName _ w => (f modelName, w).

Definition quota_error : error :=
  mkError (Some 429%Z) (Some "[429 Too Many Requests] You exceeded your current quota")
          (Some [ mkDetail (Some "type.googleapis.com/google.rpc.RetryInfo") (Some "41s") ]).

Definition missing_error : error :=
  mkError (Some 404%Z) (Some "[404 Not Found] models/gemini-2.5-flash-image-preview is not found") None.

Definition png_part : part := mkPart (Some (mkInline (Some "image/png") (Some "AAAA"))) None.
Definition wav_part : part := mkPart (Some (mkInline (Some "audio/wav") (Some "UklG"))) None.
Definition empty_png_part : part := mkPart (Some (mkInline (Some "image/png") (Some ""))) None.
Definition text_part : part := mkPart None (Some "A cat sitting on a mat.").

Definition answer (ps : list part) (t : string) : gen_response :=
  mkGen (Some [ mkCandidate (Some (mkContent (Some ps))) ]) (Ok t).

Definition no_candidates : gen_response := mkGen (Some []) (Ok "").

Definition always (o : outcome) : string -> string -> unit -> outcome * unit :=
  by_model (fun _ => o).

(** The first candidate is unknown to the provider, the others are out of
    quota. *)
Definition missing_then_quota : string -> string -> unit -> outcome * unit :=
  by_model (fun m => if String.eqb m "gemini-2.5-flash-image-preview"
                     then Throws missing_error else Throws quota_error).

Definition a_cat : jsval := JObj [ ("prompt", JStr "a cat") ].

Definition key : option string := Some "AIzaSyExample".

Definition never_fetch : string -> unit -> fetch_outcome * unit :=
  fun _ w => (FetchThrows (Error "fetch failed"), w).

Definition page : dom := mkDom "  a cat " false "inline" "none" "none" "none" "" "" "".

Definition never_fetch_post : string -> jsval -> unit -> fetch_outcome * unit :=
  fun _ _ w => (FetchThrows (Error "Failed to fetch"), w).



End Stub.

(** A provider every call to which fails with an error that is not a
    quota error. *)
Definition fails_otherwise {World : Type}
    (generateContent : string -> string -> World -> outcome * World) : Prop :=
  forall m t w, exists e, fst (generateContent m t w) = Throws e /\ is_quota e = false.

(** A provider every call to which fails with a quota error. *)
Definition fails_on_quota {World : Type}
    (generateContent : string -> string -> World -> outcome * World) : Prop :=
  forall m t w, exists e, fst (generateContent m t w) = Throws e /\ is_quota e = true.

(** What one round of the loop of /api/test-key makes of the outcome of
    its call: the text of the response, or the error that becomes
    [lastError]. *)
Definition hello_attempt (o : outcome) : result string :=
  match o with
  | Throws e => Throw e
  | Returns None => Throw (Error "Cannot read properties of undefined (reading 'text')")
  | Returns (Some r) => text r
  end.

Definition answers_hello (ev : event) : bool :=
  match ev with
  | EvGenerate _ _ o => match hello_attempt o with Ok _ => true | Throw _ => false end
  | _ => false
  end.

(** The string does not begin with white space. *)
Definition starts_clean (s : string) : bool :=
  match s with
  | EmptyString => true
  | String c _ => negb (Js.is_white c)
  end.

(** The fields of an object that JSON writes: those that are not
    [undefined]. *)
Definition defined_fields (b : list (string * jsval)) : list (string * jsval) :=
  filter (fun kv => match snd kv with JUndefined => false | _ => true end) b.

(** What [fetch] followed by [response.json()] hands to the page for a
    reply of the relay: [response.ok] holds for the statuses 200 to 299,
    and the body is the object of the reply as JSON carries it. *)
Definition as_fetched (res : http_response) : fetch_outcome :=
  FetchReturns ((200 <=? code res) && (code res <=? 299))%Z
               (JObj (defined_fields (body res))).

(** The body the page posts for the prompt typed in the form. *)
Definition posted_body (d : dom) : jsval :=
  JObj [ ("prompt", JStr (Js.trim (promptInput_value d))) ].

(** ** Measures of a trace *)

(** The models called, in the order of the calls. *)
Fixpoint called_models (tr : list event) : list string :=
  match tr with
  | [] => []
  | EvGenerate m _ _ :: rest => m :: called_models rest
  | _ :: rest => called_models rest
  end.

(** The time spent in [setTimeout], in milliseconds. *)
Fixpoint total_delay (tr : list event) : Z :=
  match tr with
  | [] => 0
  | EvSleep ms :: rest => ms + total_delay rest
  | _ :: rest => total_delay rest
  end.

(** The reply a handler computed for the outcome of its [try]. *)
Definition reply_of (r : result http_response) : http_response :=
  match r with
  | Ok res => res
  | Throw e => handle_error e
  end.

(** * Properties *)

(** ** Strings *)

Lemma trimStart_whitespace_only (s : string) :
  whitespace_only s = true -> Js.trimStart s = "".
Proof.
  induction s as [|c t IH]; simpl; [reflexivity|].
  intros H. apply andb_true_iff in H as [Hc Ht].
  rewrite Hc. auto.
Qed.

Lemma trim_whitespace_only (s : string) :
  whitespace_only s = true -> Js.trim s = "".
Proof.
  intros H. unfold Js.trim. rewrite (trimStart_whitespace_only s H).
  reflexivity.
Qed.

Lemma substring0_length (n : nat) (s : string) :
  (String.length (Js.substring0 n s) <= n)%nat.
Proof.
  unfold Js.substring0. revert s.
  induction n as [|n IH]; intros s; destruct s as [|c t]; simpl; try lia.
  specialize (IH t). lia.
Qed.

Lemma substring0_prefix (n : nat) (s : string) :
  String.prefix (Js.substring0 n s) s = true.
Proof.
  unfold Js.substring0. revert s.
  induction n as [|n IH]; intros s; destruct s as [|c t]; simpl; try reflexivity.
  destruct (ascii_dec c c) as [_|Hne]; [apply IH | congruence].
Qed.

Lemma length_zero_empty (s : string) :
  (String.length s =? 0)%nat = false <-> s <> "".
Proof.
  destruct s; simpl; split; intros H; congruence.
Qed.

(** ** The shape of a run of POST /api/generate *)

Section GenerateFacts.

Context {World : Type}.
Variable generateContent : string -> string -> World -> outcome * World.
Variable apiKey : option string.

Lemma accepted_prompt_truthy (req_body : jsval) (p : string) :
  accepted_prompt req_body p ->
  truthy (prop "prompt" req_body) = true
  /\ (String.length (Js.trim p) =? 0)%nat = false.
Proof.
  intros (_ & Hp & Ht). rewrite Hp. split.
  - destruct p; [exfalso; apply Ht; reflexivity | reflexivity].
  - apply length_zero_empty. exact Ht.
Qed.

(** With a loaded key and an accepted prompt the handler is the fallback
    loop followed by [after_loop], [respond] and the error mapping. *)
Lemma generate_runs_loop (fuel : nat) (req_body : jsval) (p : string) (w : World) :
  accepted_prompt req_body p ->
  keyLoaded apiKey = true ->
  generate generateContent apiKey fuel req_body w =
  match try_models generateContent fuel modelNames p initial w with
  | None => None
  | Some (st, w1, tr) =>
      Some (match r <- after_loop st ;; respond p r with
            | Ok res => res
            | Throw e => handle_error e
            end, w1, tr)
  end.
Proof.
  intros Hacc Hkey.
  destruct (accepted_prompt_truthy _ _ Hacc) as [Htruthy Hlen].
  destruct Hacc as (Hbody & Hp & _).
  unfold generate, generate_try.
  rewrite Hbody, Htruthy, Hp, Hlen, Hkey. cbn [negb].
  destruct (try_models generateContent fuel modelNames p initial w) as [[[st w1] tr]|];
    [|reflexivity].
  destruct (r <- after_loop st ;; respond p r); reflexivity.
Qed.

Lemma generate_answered (fuel : nat) (req_body : jsval) (p : string) (w w1 : World)
    (r : gen_response) (tr : list event) :
  accepted_prompt req_body p ->
  keyLoaded apiKey = true ->
  loop_answers generateContent fuel p w r w1 tr ->
  generate generateContent apiKey fuel req_body w =
  Some (match respond p r with
        | Ok res => res
        | Throw e => handle_error e
        end, w1, tr).
Proof.
  intros Hacc Hkey (st & Hrun & Hr).
  rewrite (generate_runs_loop fuel req_body p w Hacc Hkey), Hrun.
  unfold after_loop. rewrite Hr. reflexivity.
Qed.

End GenerateFacts.

(** ** Rejected prompts *)

(** C6.  A request whose prompt is missing, null, empty or made of white space
    only is answered 400 "Prompt is required" at once: the world is left as
    it was and the trace is empty, so the provider was never called. *)
Theorem blank_prompt_rejected {World : Type}
    (generateContent : string -> string -> World -> outcome * World)
    (apiKey : option string) (fuel : nat) (req_body : jsval) (w : World) :
  nullish req_body = false ->
  prompt_missing_or_blank req_body ->
  generate generateContent apiKey fuel req_body w =
  Some (status_json 400 [ ("error", JStr "Prompt is required") ], w, []).
Proof.
  intros Hbody [Hmiss | [Hnull | (s & Hs & Hwhite)]];
    unfold generate, generate_try; rewrite Hbody.
  - rewrite Hmiss. reflexivity.
  - rewrite Hnull. reflexivity.
  - rewrite Hs. destruct s as [|c t]; [reflexivity|].
    cbn [truthy Js.nonempty negb].
    rewrite (trim_whitespace_only _ Hwhite). reflexivity.
Qed.

Lemma blank_prompt_rejected_witness :
  generate (Stub.always (Throws Stub.quota_error)) Stub.key 0
           (JObj [ ("prompt", JStr "   ") ]) tt =
  Some (status_json 400 [ ("error", JStr "Prompt is required") ], tt, []).
Proof.
  apply blank_prompt_rejected.
  - reflexivity.
  - right. right. exists "   ". split; reflexivity.
Defined.

(** ** From the provider's response to the reply *)

Lemma find_imageData_none (ps : list part) :
  (forall q, In q ps -> is_image_part q = false) -> find_imageData ps = None.
Proof.
  induction ps as [|q rest IH]; intros H; simpl; [reflexivity|].
  rewrite (H q (or_introl eq_refl)). apply IH.
  intros x Hx. apply H. right. exact Hx.
Qed.

Lemma declares_mime_of_image (q : part) :
  is_image_part q = true -> declares_mime q = true.
Proof.
  unfold is_image_part, declares_mime.
  destruct (inlineData q) as [d|]; [|discriminate].
  destruct (mimeType d) as [m|]; [|discriminate].
  intros H. apply andb_true_iff in H. tauto.
Qed.

Lemma find_imageData_first (pre post : list part) (q : part) :
  (forall x, In x pre -> declares_mime x = false) ->
  is_image_part q = true ->
  find_imageData (pre ++ q :: post) =
  match inlineData q with Some d => data d | None => None end.
Proof.
  intros Hpre Hq. induction pre as [|x pre IH]; simpl.
  - rewrite Hq. reflexivity.
  - assert (Hx : is_image_part x = false).
    { destruct (is_image_part x) eqn:E; [|reflexivity].
      apply declares_mime_of_image in E.
      rewrite (Hpre x (or_introl eq_refl)) in E. discriminate. }
    rewrite Hx. apply IH. intros y Hy. apply Hpre. right. exact Hy.
Qed.

Lemma find_declares_mime_first (pre post : list part) (q : part) :
  (forall x, In x pre -> declares_mime x = false) ->
  declares_mime q = true ->
  find declares_mime (pre ++ q :: post) = Some q.
Proof.
  intros Hpre Hq. induction pre as [|x pre IH]; simpl.
  - rewrite Hq. reflexivity.
  - rewrite (Hpre x (or_introl eq_refl)). apply IH.
    intros y Hy. apply Hpre. right. exact Hy.
Qed.

(** C10.  When the candidate that answers returns an empty [candidates]
    array, the handler throws "No response from Gemini API", which the
    error mapping turns into the generic 500 reply (and not into 501). *)
Theorem empty_candidates_is_500 {World : Type}
    (generateContent : string -> string -> World -> outcome * World)
    (apiKey : option string) (fuel : nat) (req_body : jsval) (p : string)
    (w w1 : World) (r : gen_response) (tr : list event) :
  accepted_prompt req_body p ->
  keyLoaded apiKey = true ->
  loop_answers generateContent fuel p w r w1 tr ->
  candidates r = Some [] ->
  generate generateContent apiKey fuel req_body w =
  Some (status_json 500 [ ("error", JStr "Failed to generate image");
                          ("message", JStr "No response from Gemini API") ], w1, tr).
Proof.
  intros Hacc Hkey Hloop Hc.
  rewrite (generate_answered generateContent apiKey fuel req_body p w w1 r tr Hacc Hkey Hloop).
  unfold respond. rewrite Hc. reflexivity.
Qed.

Lemma empty_candidates_is_500_witness :
  generate (Stub.always (Returns (Some Stub.no_candidates))) Stub.key 1 Stub.a_cat tt =
  Some (status_json 500 [ ("error", JStr "Failed to generate image");
                          ("message", JStr "No response from Gemini API") ],
        tt,
        [ EvGenerate "gemini-2.5-flash-image-preview" "Generate an image: a cat"
                     (Returns (Some Stub.no_candidates)) ]).
Proof.
  apply (empty_candidates_is_500 _ Stub.key 1 Stub.a_cat "a cat" tt tt Stub.no_candidates).
  - repeat split; try reflexivity. vm_compute. discriminate.
  - reflexivity.
  - eexists. split; reflexivity.
  - reflexivity.
Defined.

(** C7.  When the response that ends the loop carries text and none of its
    parts declares an image MIME type, the reply is 501 and its [response]
    field is the first 500 characters of the text: a prefix of the text of
    length at most 500. *)
Theorem text_only_is_501 {World : Type}
    (generateContent : string -> string -> World -> outcome * World)
    (apiKey : option string) (fuel : nat) (req_body : jsval) (p : string)
    (w w1 : World) (r : gen_response) (tr : list event)
    (c : candidate) (cs : list candidate) (ct : content) (ps : list part) (t : string) :
  accepted_prompt req_body p ->
  keyLoaded apiKey = true ->
  loop_answers generateContent fuel p w r w1 tr ->
  candidates r = Some (c :: cs) ->
  cand_content c = Some ct ->
  parts ct = Some ps ->
  (forall q, In q ps -> is_image_part q = false) ->
  text r = Ok t ->
  exists res shown,
    generate generateContent apiKey fuel req_body w = Some (res, w1, tr)
    /\ code res = 501%Z
    /\ field "response" res = Some (JStr shown)
    /\ shown = Js.substring0 500 t
    /\ (String.length shown <= 500)%nat
    /\ String.prefix shown t = true.
Proof.
  intros Hacc Hkey Hloop Hc Hct Hps Hnone Ht.
  rewrite (generate_answered generateContent apiKey fuel req_body p w w1 r tr Hacc Hkey Hloop).
  unfold respond. rewrite Hc, Hct, Hps, (find_imageData_none ps Hnone).
  unfold text_instead. rewrite Ht. cbn [bind].
  eexists. exists (Js.substring0 500 t).
  split; [reflexivity|].
  split; [reflexivity|].
  split; [reflexivity|].
  split; [reflexivity|].
  split; [apply substring0_length | apply substring0_prefix].
Qed.

Lemma text_only_is_501_witness :
  exists res shown,
    generate (Stub.always (Returns (Some (Stub.answer [Stub.text_part] "A cat sitting on a mat."))))
             Stub.key 1 Stub.a_cat tt =
    Some (res, tt,
          [ EvGenerate "gemini-2.5-flash-image-preview" "Generate an image: a cat"
              (Returns (Some (Stub.answer [Stub.text_part] "A cat sitting on a mat."))) ])
    /\ code res = 501%Z
    /\ field "response" res = Some (JStr shown)
    /\ shown = Js.substring0 500 "A cat sitting on a mat."
    /\ (String.length shown <= 500)%nat
    /\ String.prefix shown "A cat sitting on a mat." = true.
Proof.
  apply (text_only_is_501 _ Stub.key 1 Stub.a_cat "a cat" tt tt
           (Stub.answer [Stub.text_part] "A cat sitting on a mat.") _
           (mkCandidate (Some (mkContent (Some [Stub.text_part])))) []
           (mkContent (Some [Stub.text_part])) [Stub.text_part]).
  - repeat split; try reflexivity. vm_compute. discriminate.
  - reflexivity.
  - eexists. split; reflexivity.
  - reflexivity.
  - reflexivity.
  - reflexivity.
  - intros q [<- | []]. reflexivity.
  - reflexivity.
Defined.

(** C3, as the code has it.  When the first part that declares any MIME
    type declares an image MIME type and carries a payload that is not
    empty, the reply is 200 with the data URI built from the MIME type and
    the payload of that part, and the prompt of the request echoed back. *)
Theorem image_part_is_returned {World : Type}
    (generateContent : string -> string -> World -> outcome * World)
    (apiKey : option string) (fuel : nat) (req_body : jsval) (p : string)
    (w w1 : World) (r : gen_response) (tr : list event)
    (c : candidate) (cs : list candidate) (ct : content)
    (pre post : list part) (q : part) (mime payload : string) :
  accepted_prompt req_body p ->
  keyLoaded apiKey = true ->
  loop_answers generateContent fuel p w r w1 tr ->
  candidates r = Some (c :: cs) ->
  cand_content c = Some ct ->
  parts ct = Some (pre ++ q :: post)%list ->
  (forall x, In x pre -> declares_mime x = false) ->
  inlineData q = Some (mkInline (Some mime) (Some payload)) ->
  Js.startsWith "image/" mime = true ->
  payload <> "" ->
  generate generateContent apiKey fuel req_body w =
  Some (mkResponse 200 [ ("success", JBool true);
                         ("image", JStr ("data:" ++ mime ++ ";base64," ++ payload));
                         ("prompt", JStr p) ], w1, tr).
Proof.
  intros Hacc Hkey Hloop Hc Hct Hps Hpre Hq Himg Hpay.
  assert (Hmime : Js.nonempty mime = true).
  { destruct mime; [discriminate Himg | reflexivity]. }
  assert (Hqi : is_image_part q = true).
  { unfold is_image_part. rewrite Hq. cbn [mimeType]. rewrite Hmime, Himg. reflexivity. }
  rewrite (generate_answered generateContent apiKey fuel req_body p w w1 r tr Hacc Hkey Hloop).
  unfold respond. rewrite Hc, Hct, Hps.
  rewrite (find_imageData_first pre post q Hpre Hqi), Hq. cbn [data].
  unfold pick_mimeType.
  rewrite (find_declares_mime_first pre post q Hpre (declares_mime_of_image q Hqi)), Hq.
  cbn [mimeType]. rewrite Hmime.
  destruct payload as [|a rest]; [congruence | reflexivity].
Qed.

Lemma image_part_is_returned_witness :
  generate (Stub.always (Returns (Some (Stub.answer [Stub.text_part; Stub.png_part] ""))))
           Stub.key 1 Stub.a_cat tt =
  Some (mkResponse 200 [ ("success", JBool true);
                         ("image", JStr "data:image/png;base64,AAAA");
                         ("prompt", JStr "a cat") ],
        tt,
        [ EvGenerate "gemini-2.5-flash-image-preview" "Generate an image: a cat"
            (Returns (Some (Stub.answer [Stub.text_part; Stub.png_part] ""))) ]).
Proof.
  apply (image_part_is_returned _ Stub.key 1 Stub.a_cat "a cat" tt tt
           (Stub.answer [Stub.text_part; Stub.png_part] "") _
           (mkCandidate (Some (mkContent (Some [Stub.text_part; Stub.png_part])))) []
           (mkContent (Some [Stub.text_part; Stub.png_part]))
           [Stub.text_part] [] Stub.png_part "image/png" "AAAA").
  - repeat split; try reflexivity. vm_compute. discriminate.
  - reflexivity.
  - eexists. split; reflexivity.
  - reflexivity.
  - reflexivity.
  - reflexivity.
  - intros x [<- | []]. reflexivity.
  - reflexivity.
  - reflexivity.
  - discriminate.
Defined.

(** C3 fails as stated on two responses that do contain an image part.
    With an audio part in front of the PNG part, the first image part is
    the PNG part with payload AAAA, yet the data URI of the reply carries
    the MIME type of the audio part.  With a PNG part whose payload is
    empty, the reply is 501 instead of 200. *)
Lemma image_claim_fails :
  (exists res tr,
     generate (Stub.always (Returns (Some (Stub.answer [Stub.wav_part; Stub.png_part] ""))))
              Stub.key 1 Stub.a_cat tt = Some (res, tt, tr)
     /\ find is_image_part [Stub.wav_part; Stub.png_part] = Some Stub.png_part
     /\ field "image" res = Some (JStr "data:audio/wav;base64,AAAA")
     /\ field "image" res <> Some (JStr "data:image/png;base64,AAAA"))
  /\ (exists res tr,
        generate (Stub.always (Returns (Some (Stub.answer [Stub.empty_png_part] "no image"))))
                 Stub.key 1 Stub.a_cat tt = Some (res, tt, tr)
        /\ find is_image_part [Stub.empty_png_part] = Some Stub.empty_png_part
        /\ code res = 501%Z
        /\ code res <> 200%Z).
Proof.
  split.
  - eexists. eexists. split; [vm_compute; reflexivity|].
    split; [reflexivity|]. split; [reflexivity|]. vm_compute. discriminate.
  - eexists. eexists. split; [vm_compute; reflexivity|].
    split; [reflexivity|]. split; [reflexivity|]. vm_compute. discriminate.
Qed.

(** ** The error mapping *)



(** ** A missing credential *)

(** C2 fails as stated: without a credential, the 500 reply of
    /api/models has no [keyLoaded] field, and neither has the 500 reply of
    /api/generate, which moreover answers 400 to a blank prompt. *)
Lemma missing_key_claim_fails :
  (exists res,
     models (World := unit) None tt = (res, tt, [])
     /\ code res = 500%Z
     /\ field "keyLoaded" res = None
     /\ field "keyLoaded" res <> Some (JBool false))
  /\ (exists res,
        generate (Stub.always (Throws Stub.quota_error)) None 1 Stub.a_cat tt
        = Some (res, tt, [])
        /\ code res = 500%Z
        /\ field "keyLoaded" res <> Some (JBool false))
  /\ (exists res,
        generate (Stub.always (Throws Stub.quota_error)) None 1
                 (JObj [ ("prompt", JStr "") ]) tt
        = Some (res, tt, [])
        /\ code res = 400%Z
        /\ code res <> 500%Z).
Proof.
  split; [|split].
  - eexists. split; [reflexivity|]. split; [reflexivity|].
    split; [reflexivity | discriminate].
  - eexists. split; [vm_compute; reflexivity|]. split; [reflexivity | discriminate].
  - eexists. split; [vm_compute; reflexivity|]. split; [reflexivity | discriminate].
Qed.

Lemma length_zero_true (s : string) :
  (String.length s =? 0)%nat = true -> s = "".
Proof.
  destruct s; [reflexivity | discriminate].
Qed.

(** C2, as the code has it.  Without a credential, no route contacts the
    provider: the world is unchanged and the trace is empty.
    /api/list-models and /api/test-key answer 500 with [keyLoaded: false];
    /api/models answers 500 with the [error] field alone.  /api/generate
    looks at the prompt first: its reply is 400 "Prompt is required"
    exactly when the body was parsed and its prompt is falsy or a string
    that trims to nothing, in particular when the prompt is missing, null,
    empty or white space; every other reply is 500, for a string prompt
    that is not blank the "not configured" reply; and no reply of
    /api/generate has a [keyLoaded] field. *)
Theorem missing_key_no_provider_call {World : Type}
    (generateContent : string -> string -> World -> outcome * World)
    (fetch : string -> World -> fetch_outcome * World)
    (apiKey : option string) (w : World) :
  keyLoaded apiKey = false ->
  list_models fetch apiKey w =
    (status_json 500 [ ("error", JStr "Gemini API key not configured");
                       ("keyLoaded", JBool false) ], w, [])
  /\ test_key generateContent apiKey w =
       (status_json 500 [ ("error", JStr "Gemini API key not configured");
                          ("keyLoaded", JBool false);
                          ("keyLength", JNum 0) ], w, [])
  /\ models apiKey w =
       (status_json 500 [ ("error", JStr "Gemini API key not configured") ], w, [])
  /\ (forall fuel req_body,
        exists res,
          generate generateContent apiKey fuel req_body w = Some (res, w, [])
          /\ field "keyLoaded" res = None
          /\ (code res = 400%Z \/ code res = 500%Z)
          /\ (code res = 400%Z <->
              nullish req_body = false
              /\ (truthy (prop "prompt" req_body) = false
                  \/ exists s, prop "prompt" req_body = JStr s /\ Js.trim s = ""))
          /\ (nullish req_body = false -> prompt_missing_or_blank req_body ->
              res = status_json 400 [ ("error", JStr "Prompt is required") ])
          /\ (forall p, accepted_prompt req_body p ->
              res = status_json 500
                      [ ("error", JStr "Gemini API key not configured. Please set GEMINI_API_KEY environment variable.") ])).
Proof.
  intros Hkey.
  assert (Hlen0 : keyLength apiKey = 0%Z).
  { unfold keyLength. destruct apiKey as [[|c k]|]; try reflexivity. discriminate Hkey. }
  split; [|split; [|split]].
  - unfold list_models. rewrite Hkey. destruct apiKey; reflexivity.
  - unfold test_key. rewrite Hkey, Hlen0. destruct apiKey; reflexivity.
  - unfold models. rewrite Hkey. reflexivity.
  - intros fuel req_body. unfold generate, generate_try.
    destruct (nullish req_body) eqn:Hbody.
    { assert (Hres : code (handle_error
                (Error ("Cannot destructure property 'prompt' of 'req.body' as it is "
                        ++ to_string req_body ++ "."))) = 500%Z
              /\ field "keyLoaded" (handle_error
                (Error ("Cannot destructure property 'prompt' of 'req.body' as it is "
                        ++ to_string req_body ++ "."))) = None).
      { destruct req_body; try discriminate Hbody; split; reflexivity. }
      destruct Hres as [Hcode Hfield].
      eexists. split; [reflexivity|]. split; [exact Hfield|].
      split; [right; exact Hcode|].
      split; [rewrite Hcode; split; [discriminate | intros [H _]; discriminate H]|].
      split; [intros H; discriminate H | intros p (H & _); congruence]. }
    destruct (truthy (prop "prompt" req_body)) eqn:Htruthy; cbn [negb].
    2:{ eexists. split; [reflexivity|]. split; [reflexivity|].
        split; [left; reflexivity|].
        split; [split; [intros _; split; [reflexivity | left; reflexivity] | reflexivity]|].
        split; [reflexivity|].
        intros p Hacc. destruct (accepted_prompt_truthy _ _ Hacc) as [Ht _]. congruence. }
    destruct (prop "prompt" req_body) as [| |b|z|s|items|fields] eqn:Hprompt;
      try discriminate Htruthy;
      try (eexists; split; [reflexivity|]; split; [reflexivity|];
           split; [right; reflexivity|];
           split; [split; [intros H; discriminate H
                          | intros (_ & [H | (s' & H & _)]); congruence]|];
           split; [intros _ [H | [H | (s' & H & _)]]; congruence
                  | intros p (_ & H & _); congruence]).
    destruct (String.length (Js.trim s) =? 0)%nat eqn:Hlen.
    + pose proof (length_zero_true _ Hlen) as Htrim.
      eexists. split; [reflexivity|]. split; [reflexivity|].
      split; [left; reflexivity|].
      split; [split; [intros _; split; [reflexivity | right; exists s; auto] | reflexivity]|].
      split; [reflexivity|].
      intros p (_ & Hp & Hne). assert (p = s) by congruence. subst p. congruence.
    + apply length_zero_empty in Hlen. rewrite Hkey. cbn [negb].
      eexists. split; [reflexivity|]. split; [reflexivity|].
      split; [right; reflexivity|].
      split; [split; [intros H; discriminate H|]|].
      { intros (_ & [H | (s' & H & Htrim)]); [discriminate H|].
        injection H as <-. congruence. }
      split; [|reflexivity].
      intros _ [H | [H | (s' & H & Hwhite)]]; try congruence.
      assert (s' = s) by congruence. subst s'.
      exfalso. apply Hlen. apply trim_whitespace_only. exact Hwhite.
Qed.

Lemma missing_key_no_provider_call_witness :
  list_models Stub.never_fetch None tt =
    (status_json 500 [ ("error", JStr "Gemini API key not configured");
                       ("keyLoaded", JBool false) ], tt, [])
  /\ test_key (Stub.always (Throws Stub.quota_error)) None tt =
       (status_json 500 [ ("error", JStr "Gemini API key not configured");
                          ("keyLoaded", JBool false);
                          ("keyLength", JNum 0) ], tt, [])
  /\ models None tt =
       (status_json 500 [ ("error", JStr "Gemini API key not configured") ], tt, [])
  /\ (forall fuel req_body,
        exists res,
          generate (Stub.always (Throws Stub.quota_error)) None fuel req_body tt
          = Some (res, tt, [])
          /\ field "keyLoaded" res = None
          /\ (code res = 400%Z \/ code res = 500%Z)
          /\ (code res = 400%Z <->
              nullish req_body = false
              /\ (truthy (prop "prompt" req_body) = false
                  \/ exists s, prop "prompt" req_body = JStr s /\ Js.trim s = ""))
          /\ (nullish req_body = false -> prompt_missing_or_blank req_body ->
              res = status_json 400 [ ("error", JStr "Prompt is required") ])
          /\ (forall p, accepted_prompt req_body p ->
              res = status_json 500
                      [ ("error", JStr "Gemini API key not configured. Please set GEMINI_API_KEY environment variable.") ])).
Proof.
  apply (missing_key_no_provider_call (Stub.always (Throws Stub.quota_error))
           Stub.never_fetch None tt).
  reflexivity.
Defined.

(** ** The form client *)

(** C9.  A submission whose prompt is not blank sends one request, and
    whatever the request settles with (a reply of any status and body, or an
    exception), the handler ends with the submit button enabled and its
    label restored. *)
Theorem submit_reenables_button {World : Type}
    (post : string -> jsval -> World -> fetch_outcome * World)
    (d : dom) (w : World) :
  Js.trim (promptInput_value d) <> "" ->
  let '(o, w1) := post "/api/generate"
                       (JObj [ ("prompt", JStr (Js.trim (promptInput_value d))) ]) w in
  exists d',
    submit post d w = (d', w1)
    /\ generateBtn_disabled d' = false
    /\ btn_text_display d' = "inline"
    /\ btn_loader_display d' = "none".
Proof.
  intros Hprompt. unfold submit.
  destruct (Js.trim (promptInput_value d)) as [|c t] eqn:Htrim; [congruence|].
  cbn [Js.nonempty negb].
  destruct (post "/api/generate" (JObj [ ("prompt", JStr (String c t)) ]) w) as [o w1].
  eexists. split; [reflexivity|].
  repeat split.
Qed.

Lemma submit_reenables_button_witness :
  exists d',
    submit (fun _ _ w => (FetchThrows (Error "Failed to fetch"), w)) Stub.page tt = (d', tt)
    /\ generateBtn_disabled d' = false
    /\ btn_text_display d' = "inline"
    /\ btn_loader_display d' = "none".
Proof.
  apply (submit_reenables_button
           (fun _ _ w => (FetchThrows (Error "Failed to fetch"), w)) Stub.page tt).
  vm_compute. discriminate.
Defined.

(** ** The retry loop of one candidate *)

Section RetryLoop.

Context {World : Type}.
Variable generateContent : string -> string -> World -> outcome * World.

Lemma retry_loop_attempts (fuel : nat) (m p : string) :
  forall rc st w st' w' tr,
    (rc <= maxRetries)%nat ->
    retry_loop generateContent fuel m p rc st w = Some (st', w', tr) ->
    attempts m rc tr.
Proof.
  induction fuel as [|fuel IH]; intros rc st w st' w' tr Hrc Hrun; [discriminate|].
  cbn [retry_loop] in Hrun.
  apply Nat.leb_le in Hrc as Hle. rewrite Hle in Hrun.
  destruct (generateContent m ("Generate an image: " ++ p) w) as [o w1].
  destruct o as [[r|]|e].
  - cbn [is_some] in Hrun. injection Hrun as <- <- <-. constructor.
  - cbn [is_some] in Hrun.
    destruct (retry_loop generateContent fuel m p rc _ w1) as [[[st2 w2] tr2]|] eqn:Hrec;
      [|discriminate].
    injection Hrun as <- <- <-.
    apply attempts_undefined. eapply IH; eauto.
  - destruct (is_quota e) eqn:Hq.
    + destruct (rc <? maxRetries)%nat eqn:Hlt.
      * apply Nat.ltb_lt in Hlt.
        destruct (retry_loop generateContent fuel m p (S rc) _ w1) as [[[st2 w2] tr2]|] eqn:Hrec;
          [|discriminate].
        injection Hrun as <- <- <-.
        apply attempts_retry; auto. eapply IH; [|exact Hrec]. lia.
      * apply Nat.ltb_ge in Hlt. injection Hrun as <- <- <-.
        apply attempts_exhausted; auto.
    + destruct (is_not_found e); [|destruct (status_is 400 e)];
        injection Hrun as <- <- <-; apply attempts_other; auto.
Qed.

End RetryLoop.


Lemma attempts_failures (m : string) (rc : nat) (tr : list event) :
  attempts m rc tr ->
  (rc <= maxRetries)%nat ->
  (List.length (filter is_failure tr) + rc <= 3)%nat.
Proof.
  induction 1 as [rc t r | rc t tr Htr IH | rc t e tr Hq Hrc Htr IH | rc t e Hq Hrc | rc t e Hq];
    unfold maxRetries in *; intros Hle; cbn [filter is_failure List.length]; try lia;
    specialize (IH ltac:(lia)); lia.
Qed.

Lemma attempts_sleeps (m : string) (rc : nat) (tr : list event) :
  attempts m rc tr ->
  (rc <= maxRetries)%nat ->
  (List.length (filter is_sleep tr) + rc <= 2)%nat.
Proof.
  induction 1 as [rc t r | rc t tr Htr IH | rc t e tr Hq Hrc Htr IH | rc t e Hq Hrc | rc t e Hq];
    unfold maxRetries in *; intros Hle; cbn [filter is_sleep List.length]; try lia;
    specialize (IH ltac:(lia)); lia.
Qed.

Lemma attempts_calls (m : string) (rc : nat) (tr : list event) :
  attempts m rc tr ->
  (rc <= maxRetries)%nat ->
  (forall m' t, ~ In (EvGenerate m' t (Returns None)) tr) ->
  (List.length (filter is_call tr) + rc <= 3)%nat.
Proof.
  induction 1 as [rc t r | rc t tr Htr IH | rc t e tr Hq Hrc Htr IH | rc t e Hq Hrc | rc t e Hq];
    unfold maxRetries in *; intros Hle Hdef; cbn [filter is_call List.length]; try lia.
  - exfalso. apply (Hdef m t). left. reflexivity.
  - assert (Hrec : (List.length (filter is_call tr) + S rc <= 3)%nat).
    { apply IH; [lia|]. intros m' t' Hin. apply (Hdef m' t'). right. right. exact Hin. }
    lia.
Qed.


Lemma app_eq_singleton {A : Type} (pre post : list A) (x y : A) :
  (pre ++ x :: post)%list = [y] -> pre = [] /\ x = y /\ post = [].
Proof.
  destruct pre as [|a pre]; cbn [app]; intros H.
  - injection H as -> ->. auto.
  - injection H as _ H. destruct pre; discriminate.
Qed.


(** A failure that is not a quota failure is the last event of the
    candidate. *)
Lemma attempts_other_last (m : string) (rc : nat) (tr : list event) :
  attempts m rc tr ->
  forall pre m' t e post,
    tr = (pre ++ EvGenerate m' t (Throws e) :: post)%list ->
    is_quota e = false -> post = [].
Proof.
  induction 1 as [rc t r | rc t tr Htr IH | rc t e tr Hq Hrc Htr IH | rc t e Hq Hrc | rc t e Hq];
    intros pre m' t' e' post Heq Hother.
  - symmetry in Heq. apply app_eq_singleton in Heq as (_ & _ & Hpost). exact Hpost.
  - destruct pre as [|a pre]; cbn [app] in Heq; [discriminate|].
    injection Heq as _ Heq. eapply IH; eauto.
  - destruct pre as [|a pre]; cbn [app] in Heq.
    + injection Heq as _ _ <- _. congruence.
    + injection Heq as _ Heq.
      destruct pre as [|b pre]; cbn [app] in Heq; [discriminate|].
      injection Heq as _ Heq. eapply IH; eauto.
  - symmetry in Heq. apply app_eq_singleton in Heq as (_ & _ & Hpost). exact Hpost.
  - symmetry in Heq. apply app_eq_singleton in Heq as (_ & _ & Hpost). exact Hpost.
Qed.

Section FallbackLoop.

Context {World : Type}.
Variable generateContent : string -> string -> World -> outcome * World.

(** The trace of the fallback loop is the traces of the candidates tried,
    one after the other, in the order of the list. *)
Lemma try_models_split (fuel : nat) (p : string) :
  forall names st w st' w' tr,
    try_models generateContent fuel names p st w = Some (st', w', tr) ->
    exists trs : list (list event),
      tr = concat trs
      /\ (List.length trs <= List.length names)%nat
      /\ forall i m t, nth_error names i = Some m -> nth_error trs i = Some t ->
                       attempts m 0 t.
Proof.
  induction names as [|m rest IH]; intros st w st' w' tr Hrun; cbn [try_models] in Hrun.
  - injection Hrun as <- <- <-. exists []. split; [reflexivity|]. split; [cbn; lia|].
    intros i m t _ Ht. destruct i; discriminate.
  - destruct (retry_loop generateContent fuel m p 0 st w) as [[[st1 w1] tr1]|] eqn:Hone;
      [|discriminate].
    assert (Hshape : attempts m 0 tr1).
    { eapply retry_loop_attempts; [|exact Hone]. unfold maxRetries. lia. }
    destruct (is_some (response st1)).
    + injection Hrun as <- <- <-. exists [tr1].
      split; [cbn; rewrite app_nil_r; reflexivity|]. split; [cbn; lia|].
      intros i m' t Hm Ht. destruct i as [|i]; cbn in Hm, Ht.
      * congruence.
      * destruct i; discriminate.
    + destruct (try_models generateContent fuel rest p st1 w1) as [[[st2 w2] tr2]|] eqn:Hrest;
        [|discriminate].
      injection Hrun as <- <- <-.
      destruct (IH _ _ _ _ _ Hrest) as (trs & -> & Hlen & Hall).
      exists (tr1 :: trs). split; [reflexivity|]. split; [cbn; lia|].
      intros i m' t Hm Ht. destruct i as [|i]; cbn in Hm, Ht.
      * congruence.
      * eapply Hall; eauto.
Qed.

End FallbackLoop.


(** ** When no candidate answers *)

Lemma thrown_app (a b : list event) :
  thrown (a ++ b) = (thrown a ++ thrown b)%list.
Proof.
  induction a as [|ev a IH]; cbn [app thrown]; [reflexivity|].
  destruct ev as [m t [r|e]| |]; cbn [app]; rewrite IH; reflexivity.
Qed.

Lemma last_opt_snoc {A : Type} (l : list A) (x : A) :
  last_opt (l ++ [x]) = Some x.
Proof.
  unfold last_opt. rewrite rev_app_distr. reflexivity.
Qed.

Lemma last_opt_app {A : Type} (a b : list A) (x : A) :
  last_opt b = Some x -> last_opt (a ++ b) = Some x.
Proof.
  unfold last_opt. rewrite rev_app_distr.
  destruct (List.rev b) as [|y ys]; [discriminate|]. intros H. exact H.
Qed.

Lemma last_opt_In {A : Type} (l : list A) (x : A) :
  last_opt l = Some x -> In x l.
Proof.
  unfold last_opt. intros H. apply in_rev.
  destruct (List.rev l) as [|y ys]; [discriminate|].
  injection H as ->. left. reflexivity.
Qed.

Section NoAnswer.

Context {World : Type}.
Variable generateContent : string -> string -> World -> outcome * World.

(** A candidate's loop that ends without a response ends on a failed call,
    and [lastError] is the error of that call. *)
Lemma retry_loop_last_error (fuel : nat) (m p : string) :
  forall rc st w st' w' tr,
    (rc <= maxRetries)%nat ->
    retry_loop generateContent fuel m p rc st w = Some (st', w', tr) ->
    response st' = None ->
    exists e, lastError st' = Some e /\ last_opt (thrown tr) = Some e.
Proof.
  induction fuel as [|fuel IH]; intros rc st w st' w' tr Hrc Hrun Hnone; [discriminate|].
  cbn [retry_loop] in Hrun.
  apply Nat.leb_le in Hrc as Hle. rewrite Hle in Hrun.
  destruct (generateContent m ("Generate an image: " ++ p) w) as [o w1].
  destruct o as [[r|]|e].
  - cbn [is_some] in Hrun. injection Hrun as <- <- <-. discriminate Hnone.
  - cbn [is_some] in Hrun.
    destruct (retry_loop generateContent fuel m p rc _ w1) as [[[st2 w2] tr2]|] eqn:Hrec;
      [|discriminate].
    injection Hrun as <- <- <-.
    destruct (IH _ _ _ _ _ _ Hrc Hrec Hnone) as (e & He & Hlast).
    exists e. split; [exact He|]. exact Hlast.
  - destruct (is_quota e) eqn:Hq.
    + destruct (rc <? maxRetries)%nat eqn:Hlt.
      * apply Nat.ltb_lt in Hlt.
        destruct (retry_loop generateContent fuel m p (S rc) _ w1) as [[[st2 w2] tr2]|] eqn:Hrec;
          [|discriminate].
        injection Hrun as <- <- <-.
        destruct (IH (S rc) _ _ _ _ _ ltac:(lia) Hrec Hnone) as (e' & He' & Hlast).
        exists e'. split; [exact He'|].
        cbn [thrown]. apply (last_opt_app [e]). exact Hlast.
      * injection Hrun as <- <- <-. exists e. split; reflexivity.
    + destruct (is_not_found e); [|destruct (status_is 400 e)];
        injection Hrun as <- <- <-; exists e; split; reflexivity.
Qed.

(** A loop all of whose calls fail or return nothing ends without a
    response. *)
Lemma retry_loop_no_answer (fuel : nat) (m p : string) :
  forall rc st w st' w' tr,
    retry_loop generateContent fuel m p rc st w = Some (st', w', tr) ->
    response st = None ->
    (forall m' t r, ~ In (EvGenerate m' t (Returns (Some r))) tr) ->
    response st' = None.
Proof.
  induction fuel as [|fuel IH]; intros rc st w st' w' tr Hrun Hst Hno; [discriminate|].
  cbn [retry_loop] in Hrun.
  destruct (rc <=? maxRetries)%nat; [|injection Hrun as <- <- <-; exact Hst].
  destruct (generateContent m ("Generate an image: " ++ p) w) as [o w1].
  destruct o as [[r|]|e].
  - cbn [is_some] in Hrun. injection Hrun as <- <- <-.
    exfalso. eapply Hno. left. reflexivity.
  - cbn [is_some] in Hrun.
    destruct (retry_loop generateContent fuel m p rc _ w1) as [[[st2 w2] tr2]|] eqn:Hrec;
      [|discriminate].
    injection Hrun as <- <- <-.
    eapply IH; [exact Hrec | reflexivity |].
    intros m' t r Hin. eapply Hno. right. exact Hin.
  - destruct (is_quota e) eqn:Hq.
    + destruct (rc <? maxRetries)%nat.
      * destruct (retry_loop generateContent fuel m p (S rc) _ w1) as [[[st2 w2] tr2]|] eqn:Hrec;
          [|discriminate].
        injection Hrun as <- <- <-.
        eapply IH; [exact Hrec | |].
        -- unfold note_quotaError. destruct (quotaError st); exact Hst.
        -- intros m' t r Hin. eapply Hno. right. right. exact Hin.
      * injection Hrun as <- <- <-.
        unfold note_quotaError. destruct (quotaError st); exact Hst.
    + destruct (is_not_found e); [|destruct (status_is 400 e)];
        injection Hrun as <- <- <-; exact Hst.
Qed.

Lemma try_models_last_error (fuel : nat) (p : string) :
  forall names st w st' w' tr,
    try_models generateContent fuel names p st w = Some (st', w', tr) ->
    response st = None ->
    (forall m t r, ~ In (EvGenerate m t (Returns (Some r))) tr) ->
    response st' = None
    /\ (names <> [] ->
        exists e, lastError st' = Some e /\ last_opt (thrown tr) = Some e).
Proof.
  induction names as [|m rest IH]; intros st w st' w' tr Hrun Hst Hno;
    cbn [try_models] in Hrun.
  - injection Hrun as <- <- <-. split; [exact Hst | congruence].
  - destruct (retry_loop generateContent fuel m p 0 st w) as [[[st1 w1] tr1]|] eqn:Hone;
      [|discriminate].
    destruct (is_some (response st1)) eqn:Hans.
    + injection Hrun as <- <- <-.
      pose proof (retry_loop_no_answer fuel m p 0 st w st1 w1 tr1 Hone Hst Hno) as Hnone.
      rewrite Hnone in Hans. discriminate.
    + destruct (try_models generateContent fuel rest p st1 w1) as [[[st2 w2] tr2]|] eqn:Hrest;
        [|discriminate].
      injection Hrun as <- <- <-.
      assert (Hno1 : forall m' t r, ~ In (EvGenerate m' t (Returns (Some r))) tr1).
      { intros m' t r Hin. eapply Hno. apply in_or_app. left. exact Hin. }
      assert (Hno2 : forall m' t r, ~ In (EvGenerate m' t (Returns (Some r))) tr2).
      { intros m' t r Hin. eapply Hno. apply in_or_app. right. exact Hin. }
      pose proof (retry_loop_no_answer fuel m p 0 st w st1 w1 tr1 Hone Hst Hno1) as Hnone1.
      destruct (IH _ _ _ _ _ Hrest Hnone1 Hno2) as [Hnone2 Hlast2].
      split; [exact Hnone2|]. intros _.
      destruct rest as [|m2 rest'].
      * cbn [try_models] in Hrest. injection Hrest as <- <- <-.
        rewrite app_nil_r.
        eapply retry_loop_last_error; [|exact Hone|exact Hnone1].
        unfold maxRetries. lia.
      * destruct (Hlast2 ltac:(discriminate)) as (e & He & Hlast).
        exists e. split; [exact He|].
        rewrite thrown_app. apply last_opt_app. exact Hlast.
Qed.

(** *** Enough fuel *)

Lemma retry_loop_total (m p : string) :
  always_responds generateContent ->
  forall fuel rc st w,
    (rc <= maxRetries)%nat ->
    (3 <= fuel + rc)%nat ->
    exists st' w' tr, retry_loop generateContent fuel m p rc st w = Some (st', w', tr).
Proof.
  intros Hresp. induction fuel as [|fuel IH]; intros rc st w Hrc Hfuel.
  - unfold maxRetries in Hrc. lia.
  - cbn [retry_loop].
    destruct (rc <=? maxRetries)%nat eqn:Hle; [|eauto].
    pose proof (Hresp m ("Generate an image: " ++ p) w) as Hr.
    destruct (generateContent m ("Generate an image: " ++ p) w) as [o w1].
    cbn [fst] in Hr.
    destruct o as [[r|]|e]; [cbn [is_some]; eauto | congruence |].
    destruct (is_quota e).
    + destruct (rc <? maxRetries)%nat eqn:Hlt; [|eauto].
      apply Nat.ltb_lt in Hlt.
      destruct (IH (S rc) (note_quotaError e st) w1 ltac:(lia) ltac:(lia))
        as (st' & w' & tr & ->).
      eauto.
    + destruct (is_not_found e); [|destruct (status_is 400 e)]; eauto.
Qed.

Lemma try_models_total (p : string) (fuel : nat) :
  always_responds generateContent ->
  (3 <= fuel)%nat ->
  forall names st w,
    exists st' w' tr, try_models generateContent fuel names p st w = Some (st', w', tr).
Proof.
  intros Hresp Hfuel. induction names as [|m rest IH]; intros st w; cbn [try_models].
  - eauto.
  - destruct (retry_loop_total m p Hresp fuel 0 st w) as (st1 & w1 & tr1 & ->);
      [unfold maxRetries; lia | lia |].
    destruct (is_some (response st1)); [eauto|].
    destruct (IH st1 w1) as (st2 & w2 & tr2 & ->). eauto.
Qed.

End NoAnswer.

Lemma no_answer_In (tr : list event) :
  existsb is_answer tr = false ->
  forall m t r, ~ In (EvGenerate m t (Returns (Some r))) tr.
Proof.
  intros H m t r Hin.
  assert (Hex : existsb is_answer tr = true).
  { apply existsb_exists. exists (EvGenerate m t (Returns (Some r))). split; [exact Hin | reflexivity]. }
  congruence.
Qed.

(** What the handler does when no candidate answers.  With a provider
    that hands back a response object whenever it returns, three rounds per
    candidate are enough for the handler to reply; and when no candidate
    answered, the reply is the error mapping of the last error the provider
    threw, that is the error that ended the attempts on the last candidate.
    That error is a quota error when all errors seen were quota errors. *)
Theorem last_error_surfaced {World : Type}
    (generateContent : string -> string -> World -> outcome * World)
    (apiKey : option string) (fuel : nat) (req_body : jsval) (p : string) (w : World) :
  accepted_prompt req_body p ->
  keyLoaded apiKey = true ->
  always_responds generateContent ->
  (3 <= fuel)%nat ->
  exists res w1 tr,
    generate generateContent apiKey fuel req_body w = Some (res, w1, tr)
    /\ (existsb is_answer tr = false ->
        exists e,
          res = handle_error e
          /\ last_opt (thrown tr) = Some e
          /\ (forallb is_quota (thrown tr) = true -> is_quota e = true)).
Proof.
  intros Hacc Hkey Hresp Hfuel.
  rewrite (generate_runs_loop generateContent apiKey fuel req_body p w Hacc Hkey).
  destruct (try_models_total generateContent p fuel Hresp Hfuel modelNames initial w)
    as (st & w1 & tr & Hrun).
  rewrite Hrun. eexists. exists w1, tr. split; [reflexivity|].
  intros Hno.
  destruct (try_models_last_error generateContent fuel p modelNames initial w st w1 tr
              Hrun eq_refl (no_answer_In tr Hno)) as [Hnone Hlast].
  destruct (Hlast ltac:(discriminate)) as (e & He & Hthrown).
  exists e. split; [|split].
  - unfold after_loop. rewrite Hnone, He.
    destruct (quotaError st); reflexivity.
  - exact Hthrown.
  - intros Hall. apply last_opt_In in Hthrown.
    rewrite forallb_forall in Hall. apply Hall. exact Hthrown.
Qed.

Lemma last_error_surfaced_witness :
  exists res w1 tr,
    generate Stub.missing_then_quota Stub.key 3 Stub.a_cat tt = Some (res, w1, tr)
    /\ (existsb is_answer tr = false ->
        exists e,
          res = handle_error e
          /\ last_opt (thrown tr) = Some e
          /\ (forallb is_quota (thrown tr) = true -> is_quota e = true)).
Proof.
  apply (last_error_surfaced Stub.missing_then_quota Stub.key 3 Stub.a_cat "a cat" tt).
  - repeat split; try reflexivity. vm_compute. discriminate.
  - reflexivity.
  - intros m t w. unfold Stub.missing_then_quota, Stub.by_model. cbn [fst].
    destruct (String.eqb m "gemini-2.5-flash-image-preview"); discriminate.
  - lia.
Defined.

(** C1.  The handler misses its own rule.  The first candidate is unknown
    to the provider (404) and the five others run out of quota: every
    candidate fails and quota is not the only error type seen, so the rule
    (the quota error only when nothing but quota errors were seen, otherwise
    the last error that is not a quota error) surfaces the 404 error, which
    maps to status 404.  The handler replies with the quota error of the
    last candidate, status 429: a candidate that runs out of retries also
    stores its quota error in [lastError]. *)
Lemma stale_quota_error_surfaced :
  exists res tr,
    generate Stub.missing_then_quota Stub.key 3 Stub.a_cat tt = Some (res, tt, tr)
    /\ existsb is_answer tr = false
    /\ forallb is_quota (thrown tr) = false
    /\ surfaced_by_spec (thrown tr) = Stub.missing_error
    /\ code (handle_error (surfaced_by_spec (thrown tr))) = 404%Z
    /\ res = handle_error Stub.quota_error
    /\ code res = 429%Z.
Proof.
  eexists. eexists. split; [vm_compute; reflexivity|].
  repeat split; vm_compute; reflexivity.
Qed.

(** ** Two runs on the same prompt *)

Section Determinism.

Context {World : Type}.
Variable generateContent : string -> string -> World -> outcome * World.
Variable f : string -> string -> outcome.
Hypothesis Hstateless : stateless generateContent f.

Lemma retry_loop_same (m p : string) :
  forall fuel rc st w w',
    loop_observable (retry_loop generateContent fuel m p rc st w)
    = loop_observable (retry_loop generateContent fuel m p rc st w').
Proof.
  induction fuel as [|fuel IH]; intros rc st w w'; [reflexivity|].
  cbn [retry_loop].
  destruct (rc <=? maxRetries)%nat; [|reflexivity].
  pose proof (Hstateless m ("Generate an image: " ++ p) w) as H1.
  pose proof (Hstateless m ("Generate an image: " ++ p) w') as H2.
  destruct (generateContent m ("Generate an image: " ++ p) w) as [o w1].
  destruct (generateContent m ("Generate an image: " ++ p) w') as [o' w1'].
  cbn [fst] in H1, H2. subst o o'.
  destruct (f m ("Generate an image: " ++ p)) as [[r|]|e].
  - reflexivity.
  - cbn [is_some].
    specialize (IH rc (set_response None st) w1 w1').
    destruct (retry_loop generateContent fuel m p rc _ w1) as [[[sa wa] ta]|];
      destruct (retry_loop generateContent fuel m p rc _ w1') as [[[sb wb] tb]|];
      cbn [loop_observable] in *; congruence.
  - destruct (is_quota e).
    + destruct (rc <? maxRetries)%nat; [|reflexivity].
      specialize (IH (S rc) (note_quotaError e st) w1 w1').
      destruct (retry_loop generateContent fuel m p (S rc) _ w1) as [[[sa wa] ta]|];
        destruct (retry_loop generateContent fuel m p (S rc) _ w1') as [[[sb wb] tb]|];
        cbn [loop_observable] in *; congruence.
    + destruct (is_not_found e); [|destruct (status_is 400 e)]; reflexivity.
Qed.

Lemma try_models_same (fuel : nat) (p : string) :
  forall names st w w',
    loop_observable (try_models generateContent fuel names p st w)
    = loop_observable (try_models generateContent fuel names p st w').
Proof.
  induction names as [|m rest IH]; intros st w w'; [reflexivity|].
  cbn [try_models].
  pose proof (retry_loop_same m p fuel 0 st w w') as Hone.
  destruct (retry_loop generateContent fuel m p 0 st w) as [[[sa wa] ta]|];
    destruct (retry_loop generateContent fuel m p 0 st w') as [[[sb wb] tb]|];
    cbn [loop_observable] in Hone; try discriminate; [|reflexivity].
  injection Hone as <- <-.
  destruct (is_some (response sa)); [reflexivity|].
  specialize (IH sa wa wb).
  destruct (try_models generateContent fuel rest p sa wa) as [[[s2 w2] t2]|];
    destruct (try_models generateContent fuel rest p sa wb) as [[[s3 w3] t3]|];
    cbn [loop_observable] in *; congruence.
Qed.

Lemma generate_same (apiKey : option string) (fuel : nat) (req_body : jsval) (w w' : World) :
  observable (generate generateContent apiKey fuel req_body w)
  = observable (generate generateContent apiKey fuel req_body w').
Proof.
  unfold generate, generate_try.
  destruct (nullish req_body); [reflexivity|].
  destruct (negb (truthy (prop "prompt" req_body))); [reflexivity|].
  destruct (prop "prompt" req_body) as [| |b|z|s|items|fields]; try reflexivity.
  destruct (String.length (Js.trim s) =? 0)%nat; [reflexivity|].
  destruct (negb (keyLoaded apiKey)); [reflexivity|].
  pose proof (try_models_same fuel s modelNames initial w w') as Hloop.
  destruct (try_models generateContent fuel modelNames s initial w) as [[[sa wa] ta]|];
    destruct (try_models generateContent fuel modelNames s initial w') as [[[sb wb] tb]|];
    cbn [loop_observable] in Hloop; try discriminate; [|reflexivity].
  injection Hloop as <- <-.
  destruct (r <- after_loop sa ;; respond s r); reflexivity.
Qed.

End Determinism.

(** Against a provider without memory the reply and the trace of a run
    do not depend on the state the world is in, and a second run on the
    same request, started where the first one ended, gives the same reply
    and the same trace. *)
Theorem same_prompt_same_outcome {World : Type}
    (generateContent : string -> string -> World -> outcome * World)
    (f : string -> string -> outcome)
    (apiKey : option string) (fuel : nat) (req_body : jsval) :
  stateless generateContent f ->
  (forall w w',
     observable (generate generateContent apiKey fuel req_body w)
     = observable (generate generateContent apiKey fuel req_body w'))
  /\ (forall w res w1 tr,
        generate generateContent apiKey fuel req_body w = Some (res, w1, tr) ->
        exists w2, generate generateContent apiKey fuel req_body w1 = Some (res, w2, tr)).
Proof.
  intros Hf. split.
  - intros w w'. exact (generate_same generateContent f Hf apiKey fuel req_body w w').
  - intros w res w1 tr Hrun.
    pose proof (generate_same generateContent f Hf apiKey fuel req_body w w1) as Hsame.
    rewrite Hrun in Hsame. cbn [observable] in Hsame.
    destruct (generate generateContent apiKey fuel req_body w1) as [[[res' w2] tr']|];
      cbn [observable] in Hsame; [|discriminate].
    injection Hsame as <- <-. exists w2. reflexivity.
Qed.

Lemma same_prompt_same_outcome_witness :
  (forall w w',
     observable (generate Stub.missing_then_quota Stub.key 3 Stub.a_cat w)
     = observable (generate Stub.missing_then_quota Stub.key 3 Stub.a_cat w'))
  /\ (forall w res w1 tr,
        generate Stub.missing_then_quota Stub.key 3 Stub.a_cat w = Some (res, w1, tr) ->
        exists w2, generate Stub.missing_then_quota Stub.key 3 Stub.a_cat w1 = Some (res, w2, tr)).
Proof.
  apply (same_prompt_same_outcome Stub.missing_then_quota
           (fun m _ => if String.eqb m "gemini-2.5-flash-image-preview"
                       then Throws Stub.missing_error else Throws Stub.quota_error)).
  intros m t w. reflexivity.
Defined.

(** * Further properties of the relay *)

(** ** The traffic of one request *)

Section Traffic.

Context {World : Type}.
Variable generateContent : string -> string -> World -> outcome * World.
Variable apiKey : option string.

(** A run of the handler either stops before the loop, with an empty trace
    and the world untouched, or is a run of the fallback loop on the string
    prompt of the request. *)
Lemma generate_inv (fuel : nat) (req_body : jsval) (w w1 : World)
    (res : http_response) (tr : list event) :
  generate generateContent apiKey fuel req_body w = Some (res, w1, tr) ->
  (tr = [] /\ w1 = w
   /\ (code res = 400%Z \/ code res = 500%Z)
   /\ exists s rest, body res = ("error", JStr s) :: rest /\ s <> "")
  \/ (exists p st,
        accepted_prompt req_body p
        /\ keyLoaded apiKey = true
        /\ try_models generateContent fuel modelNames p initial w = Some (st, w1, tr)
        /\ res = reply_of (r <- after_loop st ;; respond p r)).
Proof.
  unfold generate, generate_try.
  destruct (nullish req_body) eqn:Hbody.
  { intros H. injection H as <- <- <-. left.
    destruct req_body; try discriminate Hbody;
      (repeat split; [right; reflexivity|];
       eexists; eexists; split; [reflexivity | discriminate]). }
  destruct (truthy (prop "prompt" req_body)) eqn:Htruthy; cbn [negb].
  2:{ intros H. injection H as <- <- <-. left.
      repeat split; [left; reflexivity|]. eexists. eexists. split; [reflexivity | discriminate]. }
  destruct (prop "prompt" req_body) as [| |b|z|s|items|fields] eqn:Hprompt;
    try discriminate Htruthy;
    try (intros H; injection H as <- <- <-; left;
         repeat split; [right; reflexivity|];
         eexists; eexists; split; [reflexivity | discriminate]).
  destruct (String.length (Js.trim s) =? 0)%nat eqn:Hlen.
  { intros H. injection H as <- <- <-. left.
    repeat split; [left; reflexivity|]. eexists. eexists. split; [reflexivity | discriminate]. }
  destruct (keyLoaded apiKey) eqn:Hkey; cbn [negb].
  2:{ intros H. injection H as <- <- <-. left.
      repeat split; [right; reflexivity|]. eexists. eexists. split; [reflexivity | discriminate]. }
  destruct (try_models generateContent fuel modelNames s initial w) as [[[st w2] tr2]|] eqn:Hrun;
    [|discriminate].
  intros H. right. exists s, st.
  split; [split; [exact Hbody | split; [exact Hprompt | apply length_zero_empty; exact Hlen]]|].
  split; [reflexivity|].
  destruct (r <- after_loop st ;; respond s r) eqn:Hres;
    injection H as <- <- <-; (split; [exact Hrun | reflexivity]).
Qed.

Lemma retry_loop_events (fuel : nat) (m p : string) :
  forall rc st w st' w' tr,
    retry_loop generateContent fuel m p rc st w = Some (st', w', tr) ->
    forall ev, In ev tr ->
      (exists o, ev = EvGenerate m ("Generate an image: " ++ p) o)
      \/ ev = EvSleep 5000.
Proof.
  induction fuel as [|fuel IH]; intros rc st w st' w' tr Hrun ev Hin; [discriminate|].
  cbn [retry_loop] in Hrun.
  destruct (rc <=? maxRetries)%nat; [|injection Hrun as <- <- <-; destruct Hin].
  destruct (generateContent m ("Generate an image: " ++ p) w) as [o w2].
  destruct o as [[r|]|e].
  - cbn [is_some] in Hrun. injection Hrun as <- <- <-.
    destruct Hin as [<- | []]. left. eauto.
  - cbn [is_some] in Hrun.
    destruct (retry_loop generateContent fuel m p rc _ w2) as [[[st2 w3] tr2]|] eqn:Hrec;
      [|discriminate].
    injection Hrun as <- <- <-.
    destruct Hin as [<- | Hin]; [left; eauto | eapply IH; eauto].
  - destruct (is_quota e).
    + destruct (rc <? maxRetries)%nat.
      * destruct (retry_loop generateContent fuel m p (S rc) _ w2) as [[[st2 w3] tr2]|] eqn:Hrec;
          [|discriminate].
        injection Hrun as <- <- <-.
        destruct Hin as [<- | [<- | Hin]]; [left; eauto | right; reflexivity | eapply IH; eauto].
      * injection Hrun as <- <- <-. destruct Hin as [<- | []]. left. eauto.
    + destruct (is_not_found e); [|destruct (status_is 400 e)];
        injection Hrun as <- <- <-; destruct Hin as [<- | []]; left; eauto.
Qed.

Lemma try_models_events (fuel : nat) (p : string) :
  forall names st w st' w' tr,
    try_models generateContent fuel names p st w = Some (st', w', tr) ->
    forall ev, In ev tr ->
      (exists m o, In m names /\ ev = EvGenerate m ("Generate an image: " ++ p) o)
      \/ ev = EvSleep 5000.
Proof.
  induction names as [|m rest IH]; intros st w st' w' tr Hrun ev Hin;
    cbn [try_models] in Hrun.
  - injection Hrun as <- <- <-. destruct Hin.
  - destruct (retry_loop generateContent fuel m p 0 st w) as [[[st1 w1] tr1]|] eqn:Hone;
      [|discriminate].
    assert (Hfirst : forall ev, In ev tr1 ->
              (exists m' o, In m' (m :: rest) /\ ev = EvGenerate m' ("Generate an image: " ++ p) o)
              \/ ev = EvSleep 5000).
    { intros ev' Hin'.
      destruct (retry_loop_events fuel m p _ _ _ _ _ _ Hone ev' Hin') as [[o ->] | ->];
        [left; exists m, o; split; [left; reflexivity | reflexivity] | right; reflexivity]. }
    destruct (is_some (response st1)).
    + injection Hrun as <- <- <-. auto.
    + destruct (try_models generateContent fuel rest p st1 w1) as [[[st2 w2] tr2]|] eqn:Hrest;
        [|discriminate].
      injection Hrun as <- <- <-.
      apply in_app_or in Hin as [Hin | Hin]; [auto|].
      destruct (IH _ _ _ _ _ Hrest ev Hin) as [(m' & o & Hm & ->) | ->];
        [left; exists m', o; split; [right; exact Hm | reflexivity] | right; reflexivity].
Qed.

(** X1.  Whatever the request and the provider, the only things the
    handler does to the outside world are calls to models of its list, each
    with the text "Generate an image: " followed by the prompt exactly as it
    was received (not trimmed), and delays of 5000 ms.  It never uses
    [fetch] and never calls a model that is not in the list. *)
Theorem generate_calls_listed_models_only (fuel : nat) (req_body : jsval) (w w1 : World)
    (res : http_response) (tr : list event) :
  generate generateContent apiKey fuel req_body w = Some (res, w1, tr) ->
  forall ev, In ev tr ->
    (exists m o p,
       In m modelNames
       /\ prop "prompt" req_body = JStr p
       /\ ev = EvGenerate m ("Generate an image: " ++ p) o)
    \/ ev = EvSleep 5000.
Proof.
  intros Hrun ev Hin.
  destruct (generate_inv fuel req_body w w1 res tr Hrun)
    as [(-> & _) | (p & st & (_ & Hp & _) & _ & Hloop & _)]; [destruct Hin|].
  destruct (try_models_events fuel p _ _ _ _ _ _ Hloop ev Hin) as [(m & o & Hm & ->) | ->];
    [left; exists m, o, p; auto | right; reflexivity].
Qed.

End Traffic.

Lemma generate_calls_listed_models_only_witness :
  (exists m o p,
     In m modelNames
     /\ prop "prompt" Stub.a_cat = JStr p
     /\ EvGenerate "gemini-2.5-flash-image-preview" "Generate an image: a cat"
          (Returns (Some Stub.no_candidates))
        = EvGenerate m ("Generate an image: " ++ p) o)
  \/ EvGenerate "gemini-2.5-flash-image-preview" "Generate an image: a cat"
       (Returns (Some Stub.no_candidates))
     = EvSleep 5000.
Proof.
  apply (generate_calls_listed_models_only
           (Stub.always (Returns (Some Stub.no_candidates))) Stub.key 1 Stub.a_cat tt tt
           (status_json 500 [ ("error", JStr "Failed to generate image");
                              ("message", JStr "No response from Gemini API") ])
           [ EvGenerate "gemini-2.5-flash-image-preview" "Generate an image: a cat"
               (Returns (Some Stub.no_candidates)) ]).
  - reflexivity.
  - left. reflexivity.
Defined.

Lemma attempts_total_delay (m : string) (rc : nat) (tr : list event) :
  attempts m rc tr ->
  (rc <= maxRetries)%nat ->
  (0 <= total_delay tr /\ total_delay tr + 5000 * Z.of_nat rc <= 10000)%Z.
Proof.
  induction 1 as [rc t r | rc t tr Htr IH | rc t e tr Hq Hrc Htr IH | rc t e Hq Hrc | rc t e Hq];
    unfold maxRetries, retryDelay_ms in *; intros Hle; cbn [total_delay]; try lia;
    specialize (IH ltac:(lia)); lia.
Qed.

Lemma total_delay_app (a b : list event) :
  total_delay (a ++ b) = (total_delay a + total_delay b)%Z.
Proof.
  induction a as [|ev a IH]; cbn [app total_delay]; [reflexivity|].
  destruct ev; rewrite IH; lia.
Qed.

Lemma candidates_forall (names : list string) (trs : list (list event)) (P : string -> list event -> Prop) :
  (List.length trs <= List.length names)%nat ->
  (forall i m t, nth_error names i = Some m -> nth_error trs i = Some t -> P m t) ->
  Forall (fun t => exists m, P m t) trs.
Proof.
  intros Hlen Hall. apply Forall_forall. intros t Hin.
  destruct (In_nth_error trs t Hin) as [i Hi].
  assert (Hlt : (i < List.length trs)%nat) by (apply nth_error_Some; congruence).
  destruct (nth_error names i) as [m|] eqn:Hm.
  - exists m. eapply Hall; eauto.
  - apply nth_error_None in Hm. lia.
Qed.

Lemma concat_bounds (trs : list (list event)) :
  Forall (fun t => exists m, attempts m 0 t) trs ->
  (List.length (filter is_failure (concat trs)) <= 3 * List.length trs)%nat
  /\ (List.length (filter is_sleep (concat trs)) <= 2 * List.length trs)%nat
  /\ (0 <= total_delay (concat trs) <= 10000 * Z.of_nat (List.length trs))%Z
  /\ ((forall m t, ~ In (EvGenerate m t (Returns None)) (concat trs)) ->
      (List.length (filter is_call (concat trs)) <= 3 * List.length trs)%nat).
Proof.
  induction 1 as [|t trs [m Ht] _ IH]; cbn [concat].
  - cbn. repeat split; lia.
  - destruct IH as (Hf & Hs & Hd & Hc).
    assert (H0 : (0 <= maxRetries)%nat) by (unfold maxRetries; lia).
    pose proof (attempts_failures m 0 t Ht H0) as Hf1.
    pose proof (attempts_sleeps m 0 t Ht H0) as Hs1.
    pose proof (attempts_total_delay m 0 t Ht H0) as Hd1.
    rewrite !filter_app, !length_app, total_delay_app. cbn [List.length].
    repeat split; try lia.
    intros Hdef.
    assert (Hc1 : (List.length (filter is_call t) + 0 <= 3)%nat).
    { apply (attempts_calls m 0 t Ht H0). intros m' t' Hin.
      apply (Hdef m' t'). apply in_or_app. left. exact Hin. }
    assert (Hc2 : (List.length (filter is_call (concat trs)) <= 3 * List.length trs)%nat).
    { apply Hc. intros m' t' Hin. apply (Hdef m' t'). apply in_or_app. right. exact Hin. }
    lia.
Qed.

(** X2.  One request costs the provider at most 18 failed calls and the
    client at most 12 delays, 60 seconds of waiting in all; and unless a
    call returned without a response object, the provider is called at most
    18 times. *)
Theorem request_traffic_bounded {World : Type}
    (generateContent : string -> string -> World -> outcome * World)
    (apiKey : option string) (fuel : nat) (req_body : jsval) (w w1 : World)
    (res : http_response) (tr : list event) :
  generate generateContent apiKey fuel req_body w = Some (res, w1, tr) ->
  (List.length (filter is_failure tr) <= 18)%nat
  /\ (List.length (filter is_sleep tr) <= 12)%nat
  /\ (0 <= total_delay tr <= 60000)%Z
  /\ ((forall m t, ~ In (EvGenerate m t (Returns None)) tr) ->
      (List.length (filter is_call tr) <= 18)%nat).
Proof.
  intros Hrun.
  destruct (generate_inv generateContent apiKey fuel req_body w w1 res tr Hrun)
    as [(-> & _) | (p & st & _ & _ & Hloop & _)].
  - cbn. repeat split; lia.
  - destruct (try_models_split generateContent fuel p _ _ _ _ _ _ Hloop) as (trs & -> & Hlen & Hall).
    pose proof (candidates_forall modelNames trs (fun m t => attempts m 0 t) Hlen Hall) as Hfa.
    destruct (concat_bounds trs Hfa) as (Hf & Hs & Hd & Hc).
    cbn [modelNames List.length] in Hlen.
    repeat split; try lia.
    intros Hdef. specialize (Hc Hdef). lia.
Qed.

Lemma request_traffic_bounded_witness :
  exists res tr,
    generate (Stub.always (Throws Stub.quota_error)) Stub.key 3 Stub.a_cat tt
    = Some (res, tt, tr)
    /\ (List.length (filter is_failure tr) <= 18)%nat
    /\ (List.length (filter is_sleep tr) <= 12)%nat
    /\ (0 <= total_delay tr <= 60000)%Z.
Proof.
  destruct (request_traffic_bounded (Stub.always (Throws Stub.quota_error)) Stub.key 3
              Stub.a_cat tt tt _ _ eq_refl) as (Hf & Hs & Hd & _).
  eexists. eexists. split; [reflexivity|]. split; [exact Hf|]. split; [exact Hs | exact Hd].
Defined.

(** ** The answer that ends the loop *)

Section Answer.

Context {World : Type}.
Variable generateContent : string -> string -> World -> outcome * World.

Lemma retry_loop_answer (fuel : nat) (m p : string) :
  forall rc st w st' w' tr,
    response st = None ->
    retry_loop generateContent fuel m p rc st w = Some (st', w', tr) ->
    (response st' = None /\ existsb is_answer tr = false)
    \/ (exists pre r,
          tr = (pre ++ [EvGenerate m ("Generate an image: " ++ p) (Returns (Some r))])%list
          /\ existsb is_answer pre = false
          /\ response st' = Some r
          /\ successfulModel st' = Some m).
Proof.
  induction fuel as [|fuel IH]; intros rc st w st' w' tr Hst Hrun; [discriminate|].
  cbn [retry_loop] in Hrun.
  destruct (rc <=? maxRetries)%nat; [|injection Hrun as <- <- <-; left; auto].
  destruct (generateContent m ("Generate an image: " ++ p) w) as [o w2].
  destruct o as [[r|]|e].
  - cbn [is_some] in Hrun. injection Hrun as <- <- <-.
    right. exists [], r. auto.
  - cbn [is_some] in Hrun.
    destruct (retry_loop generateContent fuel m p rc _ w2) as [[[st2 w3] tr2]|] eqn:Hrec;
      [|discriminate].
    injection Hrun as <- <- <-.
    destruct (IH rc (set_response None st) w2 st2 w3 tr2 eq_refl Hrec)
      as [[Hn Hno] | (pre & r & -> & Hpre & Hr & Hm)].
    + left. split; [exact Hn | exact Hno].
    + right. exists (EvGenerate m ("Generate an image: " ++ p) (Returns None) :: pre), r. auto.
  - assert (Hq : response (note_quotaError e st) = None).
    { unfold note_quotaError. destruct (quotaError st); exact Hst. }
    destruct (is_quota e).
    + destruct (rc <? maxRetries)%nat.
      * destruct (retry_loop generateContent fuel m p (S rc) _ w2) as [[[st2 w3] tr2]|] eqn:Hrec;
          [|discriminate].
        injection Hrun as <- <- <-.
        destruct (IH _ _ _ _ _ _ Hq Hrec) as [[Hn Hno] | (pre & r & -> & Hpre & Hr & Hm)].
        -- left. split; [exact Hn | exact Hno].
        -- right.
           exists (EvGenerate m ("Generate an image: " ++ p) (Throws e)
                     :: EvSleep retryDelay_ms :: pre), r. auto.
      * injection Hrun as <- <- <-. left. auto.
    + destruct (is_not_found e); [|destruct (status_is 400 e)];
        injection Hrun as <- <- <-; left; auto.
Qed.

Lemma try_models_answer (fuel : nat) (p : string) :
  forall names st w st' w' tr,
    response st = None ->
    try_models generateContent fuel names p st w = Some (st', w', tr) ->
    (response st' = None /\ existsb is_answer tr = false)
    \/ (exists pre m r,
          tr = (pre ++ [EvGenerate m ("Generate an image: " ++ p) (Returns (Some r))])%list
          /\ existsb is_answer pre = false
          /\ In m names
          /\ response st' = Some r
          /\ successfulModel st' = Some m).
Proof.
  induction names as [|m rest IH]; intros st w st' w' tr Hst Hrun; cbn [try_models] in Hrun.
  - injection Hrun as <- <- <-. left. auto.
  - destruct (retry_loop generateContent fuel m p 0 st w) as [[[st1 w1] tr1]|] eqn:Hone;
      [|discriminate].
    destruct (retry_loop_answer fuel m p _ _ _ _ _ _ Hst Hone)
      as [[Hn1 Hno1] | (pre & r & -> & Hpre & Hr & Hm)].
    + rewrite Hn1 in Hrun. cbn [is_some] in Hrun.
      destruct (try_models generateContent fuel rest p st1 w1) as [[[st2 w2] tr2]|] eqn:Hrest;
        [|discriminate].
      injection Hrun as <- <- <-.
      destruct (IH _ _ _ _ _ Hn1 Hrest)
        as [[Hn2 Hno2] | (pre & m' & r & -> & Hpre & Hin & Hr & Hm)].
      * left. split; [exact Hn2|]. rewrite existsb_app, Hno1, Hno2. reflexivity.
      * right. exists (tr1 ++ pre)%list, m', r.
        split; [rewrite app_assoc; reflexivity|].
        split; [rewrite existsb_app, Hno1, Hpre; reflexivity|].
        split; [right; exact Hin|]. auto.
    + rewrite Hr in Hrun. cbn [is_some] in Hrun. injection Hrun as <- <- <-.
      right. exists pre, m, r.
      split; [reflexivity|]. split; [exact Hpre|]. split; [left; reflexivity|]. auto.
Qed.

(** X3.  The reply is decided by how the trace of the request ends.
    Either no call was answered, and the reply is the error mapping of the
    last error thrown; or the trace ends with the one answer of the request,
    given by a model of the list, nothing is called after it, and the reply
    is computed from that answer alone. *)
Theorem reply_decided_by_last_event (apiKey : option string) (fuel : nat)
    (req_body : jsval) (p : string) (w w1 : World) (res : http_response) (tr : list event) :
  accepted_prompt req_body p ->
  keyLoaded apiKey = true ->
  generate generateContent apiKey fuel req_body w = Some (res, w1, tr) ->
  (existsb is_answer tr = false
   /\ exists e, last_opt (thrown tr) = Some e /\ res = handle_error e)
  \/ (exists pre m r,
        tr = (pre ++ [EvGenerate m ("Generate an image: " ++ p) (Returns (Some r))])%list
        /\ existsb is_answer pre = false
        /\ In m modelNames
        /\ res = reply_of (respond p r)).
Proof.
  intros Hacc Hkey Hrun.
  rewrite (generate_runs_loop generateContent apiKey fuel req_body p w Hacc Hkey) in Hrun.
  destruct (try_models generateContent fuel modelNames p initial w) as [[[st w2] tr2]|] eqn:Hloop;
    [|discriminate].
  injection Hrun as <- <- <-.
  destruct (try_models_answer fuel p modelNames initial w st w2 tr2 eq_refl Hloop)
    as [[Hn Hno] | (pre & m & r & -> & Hpre & Hin & Hr & _)].
  - left. split; [exact Hno|].
    destruct (try_models_last_error generateContent fuel p modelNames initial w st w2 tr2
                Hloop eq_refl (no_answer_In tr2 Hno)) as [_ Hlast].
    destruct (Hlast ltac:(discriminate)) as (e & He & Hthrown).
    exists e. split; [exact Hthrown|].
    unfold after_loop. rewrite Hn, He. destruct (quotaError st); reflexivity.
  - right. exists pre, m, r.
    split; [reflexivity|]. split; [exact Hpre|]. split; [exact Hin|].
    unfold after_loop. rewrite Hr. reflexivity.
Qed.

End Answer.

Lemma reply_decided_by_last_event_witness :
  (existsb is_answer
     [ EvGenerate "gemini-2.5-flash-image-preview" "Generate an image: a cat"
         (Returns (Some Stub.no_candidates)) ] = false
   /\ exists e,
        last_opt (thrown [ EvGenerate "gemini-2.5-flash-image-preview"
                             "Generate an image: a cat"
                             (Returns (Some Stub.no_candidates)) ]) = Some e
        /\ status_json 500 [ ("error", JStr "Failed to generate image");
                             ("message", JStr "No response from Gemini API") ]
           = handle_error e)
  \/ (exists pre m r,
        [ EvGenerate "gemini-2.5-flash-image-preview" "Generate an image: a cat"
            (Returns (Some Stub.no_candidates)) ]
        = (pre ++ [EvGenerate m ("Generate an image: " ++ "a cat") (Returns (Some r))])%list
        /\ existsb is_answer pre = false
        /\ In m modelNames
        /\ status_json 500 [ ("error", JStr "Failed to generate image");
                             ("message", JStr "No response from Gemini API") ]
           = reply_of (respond "a cat" r)).
Proof.
  apply (reply_decided_by_last_event (Stub.always (Returns (Some Stub.no_candidates)))
           Stub.key 1 Stub.a_cat "a cat" tt tt).
  - repeat split; try reflexivity. vm_compute. discriminate.
  - reflexivity.
  - reflexivity.
Defined.

(** ** Providers that always fail *)

Lemma called_models_app (a b : list event) :
  called_models (a ++ b) = (called_models a ++ called_models b)%list.
Proof.
  induction a as [|ev a IH]; cbn [app called_models]; [reflexivity|].
  destruct ev; cbn [app]; rewrite IH; reflexivity.
Qed.

Section AlwaysFailing.

Context {World : Type}.
Variable generateContent : string -> string -> World -> outcome * World.

Lemma try_models_fails_otherwise (fuel : nat) (p : string) :
  fails_otherwise generateContent ->
  forall names st w,
    response st = None ->
    exists st' w' tr,
      try_models generateContent (S fuel) names p st w = Some (st', w', tr)
      /\ called_models tr = names
      /\ List.length tr = List.length names
      /\ response st' = None
      /\ (names <> [] -> exists e, lastError st' = Some e /\ is_quota e = false).
Proof.
  intros Hfail. induction names as [|m rest IH]; intros st w Hst.
  - exists st, w, []. repeat split; auto. congruence.
  - cbn [try_models retry_loop]. cbn [Nat.leb maxRetries].
    destruct (Hfail m ("Generate an image: " ++ p) w) as (e & He & Hq).
    destruct (generateContent m ("Generate an image: " ++ p) w) as [o w1].
    cbn [fst] in He. subst o. rewrite Hq.
    assert (Hone : (if is_not_found e
                    then Some (set_lastError e st, w1,
                               [EvGenerate m ("Generate an image: " ++ p) (Throws e)])
                    else if status_is 400 e
                         then Some (set_lastError e st, w1,
                                    [EvGenerate m ("Generate an image: " ++ p) (Throws e)])
                         else Some (set_lastError e st, w1,
                                    [EvGenerate m ("Generate an image: " ++ p) (Throws e)]))
                   = Some (set_lastError e st, w1,
                           [EvGenerate m ("Generate an image: " ++ p) (Throws e)])).
    { destruct (is_not_found e); [|destruct (status_is 400 e)]; reflexivity. }
    rewrite Hone. cbn [response set_lastError]. rewrite Hst. cbn [is_some].
    destruct (IH (set_lastError e st) w1 Hst) as (st' & w' & tr & Hrun & Hcalled & Hlen & Hnone & Hlast).
    cbn [try_models] in Hrun. 
    change (try_models generateContent (S fuel) rest p (set_lastError e st) w1)
      with (try_models generateContent (S fuel) rest p
              (mkLoop (Some e) (response st) (successfulModel st) (quotaError st)) w1) in Hrun.
    unfold set_lastError. rewrite Hrun.
    exists st', w'. eexists. split; [reflexivity|].
    cbn [app called_models List.length]. rewrite Hcalled, Hlen.
    repeat split; auto.
    intros _. destruct rest as [|m2 rest'].
    + cbn [try_models] in Hrun. injection Hrun as <- _ _. exists e. auto.
    + apply Hlast. discriminate.
Qed.

Lemma retry_loop_fails_on_quota (m p : string) :
  fails_on_quota generateContent ->
  forall fuel rc st w,
    (rc <= maxRetries)%nat ->
    (3 <= fuel + rc)%nat ->
    exists st' w' tr e,
      retry_loop generateContent fuel m p rc st w = Some (st', w', tr)
      /\ called_models tr = repeat m (3 - rc)
      /\ total_delay tr = (5000 * Z.of_nat (2 - rc))%Z
      /\ response st' = response st
      /\ lastError st' = Some e
      /\ is_quota e = true.
Proof.
  intros Hfail. induction fuel as [|fuel IH]; intros rc st w Hrc Hfuel.
  - unfold maxRetries in Hrc. lia.
  - cbn [retry_loop].
    apply Nat.leb_le in Hrc as Hle. rewrite Hle.
    destruct (Hfail m ("Generate an image: " ++ p) w) as (e & He & Hq).
    destruct (generateContent m ("Generate an image: " ++ p) w) as [o w1].
    cbn [fst] in He. subst o. rewrite Hq.
    assert (Hresp : response (note_quotaError e st) = response st).
    { unfold note_quotaError. destruct (quotaError st); reflexivity. }
    destruct (rc <? maxRetries)%nat eqn:Hlt.
    + apply Nat.ltb_lt in Hlt. unfold maxRetries in *.
      destruct (IH (S rc) (note_quotaError e st) w1 ltac:(lia) ltac:(lia))
        as (st' & w' & tr & e' & -> & Hcalled & Hdelay & Hr & He' & Hq').
      exists st', w'. eexists. exists e'. split; [reflexivity|].
      cbn [called_models total_delay]. rewrite Hcalled, Hdelay, Hr, Hresp.
      replace (3 - rc)%nat with (S (3 - S rc)) by lia. cbn [repeat].
      unfold retryDelay_ms. repeat split; auto. lia.
    + apply Nat.ltb_ge in Hlt. unfold maxRetries in *.
      assert (rc = 2%nat) by lia. subst rc.
      exists (set_lastError e (note_quotaError e st)), w1. eexists. exists e.
      split; [reflexivity|]. cbn [called_models total_delay]. repeat split; auto.
Qed.

Lemma try_models_fails_on_quota (fuel : nat) (p : string) :
  fails_on_quota generateContent ->
  (3 <= fuel)%nat ->
  forall names st w,
    response st = None ->
    exists st' w' tr,
      try_models generateContent fuel names p st w = Some (st', w', tr)
      /\ called_models tr = flat_map (fun m => [m; m; m]) names
      /\ total_delay tr = (10000 * Z.of_nat (List.length names))%Z
      /\ response st' = None
      /\ (names <> [] -> exists e, lastError st' = Some e /\ is_quota e = true).
Proof.
  intros Hfail Hfuel. induction names as [|m rest IH]; intros st w Hst.
  - exists st, w, []. repeat split; auto. congruence.
  - cbn [try_models].
    destruct (retry_loop_fails_on_quota m p Hfail fuel 0 st w)
      as (st1 & w1 & tr1 & e & -> & Hcalled1 & Hdelay1 & Hr1 & He1 & Hq1);
      [unfold maxRetries; lia | lia |].
    rewrite Hr1, Hst. cbn [is_some].
    destruct (IH st1 w1 ltac:(congruence)) as (st' & w' & tr & Hrun & Hcalled & Hdelay & Hnone & Hlast).
    rewrite Hrun. exists st', w'. eexists. split; [reflexivity|].
    rewrite called_models_app, total_delay_app, Hcalled1, Hcalled, Hdelay1, Hdelay.
    cbn [flat_map List.length repeat Nat.sub app].
    repeat split; auto; [lia|].
    intros _. destruct rest as [|m2 rest'].
    + cbn [try_models] in Hrun. injection Hrun as <- _ _. exists e. auto.
    + apply Hlast. discriminate.
Qed.

End AlwaysFailing.

(** X4.  When every call fails with an error that is not a quota error,
    one round of the loop per candidate is enough: each model of the list
    is called exactly once, in the order of the list, there is no delay, and
    the reply is the error mapping of an error that is not a quota error. *)
Theorem other_failures_one_call_each {World : Type}
    (generateContent : string -> string -> World -> outcome * World)
    (apiKey : option string) (fuel : nat) (req_body : jsval) (p : string) (w : World) :
  accepted_prompt req_body p ->
  keyLoaded apiKey = true ->
  fails_otherwise generateContent ->
  (1 <= fuel)%nat ->
  exists res w1 tr e,
    generate generateContent apiKey fuel req_body w = Some (res, w1, tr)
    /\ called_models tr = modelNames
    /\ List.length tr = 6%nat
    /\ res = handle_error e
    /\ is_quota e = false.
Proof.
  intros Hacc Hkey Hfail Hfuel.
  destruct fuel as [|fuel]; [lia|].
  rewrite (generate_runs_loop generateContent apiKey (S fuel) req_body p w Hacc Hkey).
  destruct (try_models_fails_otherwise generateContent fuel p Hfail modelNames initial w eq_refl)
    as (st & w1 & tr & -> & Hcalled & Hlen & Hnone & Hlast).
  destruct (Hlast ltac:(discriminate)) as (e & He & Hq).
  eexists. exists w1, tr, e. split; [reflexivity|].
  split; [exact Hcalled|]. split; [exact Hlen|]. split; [|exact Hq].
  unfold after_loop. rewrite Hnone, He. destruct (quotaError st); reflexivity.
Qed.

Lemma other_failures_one_call_each_witness :
  exists res w1 tr e,
    generate (Stub.always (Throws Stub.missing_error)) Stub.key 1 Stub.a_cat tt
    = Some (res, w1, tr)
    /\ called_models tr = modelNames
    /\ List.length tr = 6%nat
    /\ res = handle_error e
    /\ is_quota e = false.
Proof.
  apply (other_failures_one_call_each (Stub.always (Throws Stub.missing_error))
           Stub.key 1 Stub.a_cat "a cat" tt).
  - repeat split; try reflexivity. vm_compute. discriminate.
  - reflexivity.
  - intros m t w. exists Stub.missing_error. split; reflexivity.
  - lia.
Defined.

(** X5.  When every call fails with a quota error, three rounds per
    candidate exhaust the list: each model is called three times in a row,
    in the order of the list, the request waits 60 seconds in all, and the
    reply is the error mapping of a quota error. *)
Theorem quota_failures_exhaust_the_list {World : Type}
    (generateContent : string -> string -> World -> outcome * World)
    (apiKey : option string) (fuel : nat) (req_body : jsval) (p : string) (w : World) :
  accepted_prompt req_body p ->
  keyLoaded apiKey = true ->
  fails_on_quota generateContent ->
  (3 <= fuel)%nat ->
  exists res w1 tr e,
    generate generateContent apiKey fuel req_body w = Some (res, w1, tr)
    /\ called_models tr = flat_map (fun m => [m; m; m]) modelNames
    /\ total_delay tr = 60000%Z
    /\ res = handle_error e
    /\ is_quota e = true
    /\ (code res = 429%Z \/ code res = 404%Z).
Proof.
  intros Hacc Hkey Hfail Hfuel.
  rewrite (generate_runs_loop generateContent apiKey fuel req_body p w Hacc Hkey).
  destruct (try_models_fails_on_quota generateContent fuel p Hfail Hfuel modelNames initial w eq_refl)
    as (st & w1 & tr & -> & Hcalled & Hdelay & Hnone & Hlast).
  destruct (Hlast ltac:(discriminate)) as (e & He & Hq).
  eexists. exists w1, tr, e. split; [reflexivity|].
  split; [exact Hcalled|]. split; [exact Hdelay|].
  assert (Hres : reply_of (r <- after_loop st ;; respond p r) = handle_error e).
  { unfold after_loop. rewrite Hnone, He. destruct (quotaError st); reflexivity. }
  split; [exact Hres|]. split; [exact Hq|].
  change (code (reply_of (r <- after_loop st ;; respond p r)) = 429%Z
          \/ code (reply_of (r <- after_loop st ;; respond p r)) = 404%Z).
  rewrite Hres. unfold handle_error.
  destruct (is_not_found e); [right; reflexivity|]. rewrite Hq. left. reflexivity.
Qed.

Lemma quota_failures_exhaust_the_list_witness :
  exists res w1 tr e,
    generate (Stub.always (Throws Stub.quota_error)) Stub.key 3 Stub.a_cat tt
    = Some (res, w1, tr)
    /\ called_models tr = flat_map (fun m => [m; m; m]) modelNames
    /\ total_delay tr = 60000%Z
    /\ res = handle_error e
    /\ is_quota e = true
    /\ (code res = 429%Z \/ code res = 404%Z).
Proof.
  apply (quota_failures_exhaust_the_list (Stub.always (Throws Stub.quota_error))
           Stub.key 3 Stub.a_cat "a cat" tt).
  - repeat split; try reflexivity. vm_compute. discriminate.
  - reflexivity.
  - intros m t w. exists Stub.quota_error. split; reflexivity.
  - lia.
Defined.

(** ** The replies of POST /api/generate *)

Lemma handle_error_shape (e : error) :
  (code (handle_error e) = 404%Z \/ code (handle_error e) = 429%Z
   \/ code (handle_error e) = 401%Z \/ code (handle_error e) = 500%Z)
  /\ exists s rest, body (handle_error e) = ("error", JStr s) :: rest /\ s <> "".
Proof.
  unfold handle_error.
  destruct (is_not_found e); [|destruct (is_quota e); [|destruct (is_auth e)]];
    (split; [cbn; tauto | eexists; eexists; split; [reflexivity | discriminate]]).
Qed.

Lemma pick_mimeType_nonempty (ps : list part) : pick_mimeType ps <> "".
Proof.
  unfold pick_mimeType.
  destruct (find declares_mime ps) as [q|]; [|discriminate].
  destruct (inlineData q) as [d|]; [|discriminate].
  destruct (mimeType d) as [m|]; [|discriminate].
  destruct m; cbn [Js.nonempty]; discriminate.
Qed.

(** What [respond] returns without throwing: the image reply or the 501
    reply. *)
Lemma respond_shape (p : string) (r : gen_response) (res : http_response) :
  respond p r = Ok res ->
  (exists mime payload,
     mime <> "" /\ payload <> ""
     /\ res = mkResponse 200 [ ("success", JBool true);
                               ("image", JStr ("data:" ++ mime ++ ";base64," ++ payload));
                               ("prompt", JStr p) ])
  \/ (exists t,
        text r = Ok t
        /\ res = mkResponse 501
                   [ ("error", JStr "Model does not support direct image generation");
                     ("message", JStr unsupported_message);
                     ("response", JStr (Js.substring0 500 t));
                     ("suggestion", JStr unsupported_suggestion) ]).
Proof.
  unfold respond.
  destruct (match candidates r with Some l => l | None => [] end) as [|c cs]; [discriminate|].
  destruct (cand_content c) as [ct|]; [|discriminate].
  assert (Htext : text_instead r = Ok res ->
                  exists t, text r = Ok t
                            /\ res = mkResponse 501
                                 [ ("error", JStr "Model does not support direct image generation");
                                   ("message", JStr unsupported_message);
                                   ("response", JStr (Js.substring0 500 t));
                                   ("suggestion", JStr unsupported_suggestion) ]).
  { unfold text_instead. destruct (text r) as [t|e]; cbn [bind]; [|discriminate].
    intros H. injection H as <-. exists t. split; reflexivity. }
  destruct (find_imageData _) as [[|a d]|]; try (intros H; right; exact (Htext H)).
  intros H. injection H as <-. left.
  eexists. exists (String a d).
  split; [apply pick_mimeType_nonempty|]. split; [discriminate | reflexivity].
Qed.

(** X6.  Every reply of POST /api/generate has one of the statuses 200,
    400, 401, 404, 429, 500 and 501, and every reply other than 200 starts
    with an [error] field holding a string that is not empty. *)
Theorem generate_reply_statuses {World : Type}
    (generateContent : string -> string -> World -> outcome * World)
    (apiKey : option string) (fuel : nat) (req_body : jsval) (w w1 : World)
    (res : http_response) (tr : list event) :
  generate generateContent apiKey fuel req_body w = Some (res, w1, tr) ->
  In (code res) [200; 400; 401; 404; 429; 500; 501]%Z
  /\ (code res <> 200%Z ->
      exists s rest, body res = ("error", JStr s) :: rest /\ s <> "").
Proof.
  intros Hrun.
  destruct (generate_inv generateContent apiKey fuel req_body w w1 res tr Hrun)
    as [(_ & _ & Hcode & Herr) | (p & st & _ & _ & _ & ->)].
  - split; [|intros _; exact Herr].
    destruct Hcode as [-> | ->]; cbn; tauto.
  - destruct (r <- after_loop st ;; respond p r) as [res|e] eqn:Hres; cbn [reply_of].
    + destruct (after_loop st) as [r|e]; cbn [bind] in Hres; [|discriminate].
      destruct (respond_shape p r res Hres) as [(mime & payload & _ & _ & ->) | (t & _ & ->)].
      * split; [cbn; tauto | cbn; congruence].
      * split; [cbn; tauto|]. intros _. eexists. eexists. split; [reflexivity | discriminate].
    + destruct (handle_error_shape e) as [Hcode Herr].
      split; [|intros _; exact Herr].
      destruct Hcode as [-> | [-> | [-> | ->]]]; cbn; tauto.
Qed.

Lemma generate_reply_statuses_witness :
  In 429%Z [200; 400; 401; 404; 429; 500; 501]%Z
  /\ (429%Z <> 200%Z ->
      exists s rest,
        body (handle_error Stub.quota_error) = ("error", JStr s) :: rest /\ s <> "").
Proof.
  eapply (generate_reply_statuses (Stub.always (Throws Stub.quota_error)) Stub.key 3
           Stub.a_cat tt tt (handle_error Stub.quota_error)).
  reflexivity.
Defined.

(** X7.  A reply with status 200 is always the image reply: [success] is
    true, [image] is a data URI with a MIME type and a payload that are not
    empty, and [prompt] is the prompt of the request, character for
    character. *)
Theorem ok_reply_is_an_image {World : Type}
    (generateContent : string -> string -> World -> outcome * World)
    (apiKey : option string) (fuel : nat) (req_body : jsval) (w w1 : World)
    (res : http_response) (tr : list event) :
  generate generateContent apiKey fuel req_body w = Some (res, w1, tr) ->
  code res = 200%Z ->
  exists p mime payload,
    prop "prompt" req_body = JStr p
    /\ mime <> "" /\ payload <> ""
    /\ body res = [ ("success", JBool true);
                    ("image", JStr ("data:" ++ mime ++ ";base64," ++ payload));
                    ("prompt", JStr p) ].
Proof.
  intros Hrun Hcode.
  destruct (generate_inv generateContent apiKey fuel req_body w w1 res tr Hrun)
    as [(_ & _ & [H | H] & _) | (p & st & (_ & Hp & _) & _ & _ & ->)]; try congruence.
  destruct (r <- after_loop st ;; respond p r) as [res|e] eqn:Hres; cbn [reply_of] in *.
  - destruct (after_loop st) as [r|e]; cbn [bind] in Hres; [|discriminate].
    destruct (respond_shape p r res Hres) as [(mime & payload & Hm & Hpay & ->) | (t & _ & ->)].
    + exists p, mime, payload. auto.
    + discriminate Hcode.
  - destruct (handle_error_shape e) as [[H | [H | [H | H]]] _]; congruence.
Qed.

Lemma ok_reply_is_an_image_witness :
  exists p mime payload,
    prop "prompt" Stub.a_cat = JStr p
    /\ mime <> "" /\ payload <> ""
    /\ [ ("success", JBool true);
         ("image", JStr "data:image/png;base64,AAAA");
         ("prompt", JStr "a cat") ]
       = [ ("success", JBool true);
           ("image", JStr ("data:" ++ mime ++ ";base64," ++ payload));
           ("prompt", JStr p) ].
Proof.
  eapply (ok_reply_is_an_image
           (Stub.always (Returns (Some (Stub.answer [Stub.text_part; Stub.png_part] ""))))
           Stub.key 1 Stub.a_cat tt tt
           (mkResponse 200 [ ("success", JBool true);
                             ("image", JStr "data:image/png;base64,AAAA");
                             ("prompt", JStr "a cat") ])).
  - reflexivity.
  - reflexivity.
Defined.

(** ** GET /api/list-models *)

Lemma keyLoaded_nonempty (k : string) : k <> "" -> keyLoaded (Some k) = true.
Proof.
  destruct k; [congruence | reflexivity].
Qed.

(** X8.  With a key, the route makes exactly one request, to the models
    endpoint with the key in the query string.  It replies 200 exactly when
    that request came back with [ok] and a parsed body that is neither
    [null] nor [undefined]; every other reply is 500 "Failed to list models"
    with [keyLoaded: true]. *)
Theorem list_models_one_fetch {World : Type}
    (fetch : string -> World -> fetch_outcome * World) (k : string) (w : World) :
  k <> "" ->
  exists res,
    list_models fetch (Some k) w
    = (res, snd (fetch (list_models_url k) w), [EvFetch (list_models_url k)])
    /\ list_models_url k
       = "https://generativelanguage.googleapis.com/v1beta/models?key=" ++ k
    /\ (code res = 200%Z
        \/ (code res = 500%Z
            /\ field "error" res = Some (JStr "Failed to list models")
            /\ field "keyLoaded" res = Some (JBool true)))
    /\ (code res = 200%Z <->
        exists parsed,
          fst (fetch (list_models_url k) w) = FetchReturns true parsed
          /\ nullish parsed = false).
Proof.
  intros Hk. unfold list_models, list_models_try.
  rewrite (keyLoaded_nonempty k Hk). cbn [negb].
  destruct (fetch (list_models_url k) w) as [o w1]. cbn [fst snd].
  destruct o as [e | ok parsed].
  - eexists. split; [reflexivity|]. split; [reflexivity|].
    split; [right; repeat split|].
    split; [discriminate | intros (parsed & H & _); discriminate].
  - destruct ok; cbn [negb].
    + destruct (nullish parsed) eqn:Hn.
      * eexists. split; [reflexivity|]. split; [reflexivity|].
        split; [right; repeat split|].
        split; [discriminate | intros (parsed' & H & Hn'); injection H as <-; congruence].
      * eexists. split; [reflexivity|]. split; [reflexivity|].
        split; [left; reflexivity|].
        split; [intros _; exists parsed; auto | reflexivity].
    + destruct (nullish parsed) eqn:Hn;
        (eexists; split; [reflexivity|]; split; [reflexivity|];
         split; [right; repeat split|];
         split; [discriminate | intros (parsed' & H & _); discriminate]).
Qed.

Lemma list_models_one_fetch_witness :
  exists res,
    list_models Stub.never_fetch (Some "AIzaSyExample") tt
    = (res, snd (Stub.never_fetch (list_models_url "AIzaSyExample") tt),
       [EvFetch (list_models_url "AIzaSyExample")])
    /\ list_models_url "AIzaSyExample"
       = "https://generativelanguage.googleapis.com/v1beta/models?key=" ++ "AIzaSyExample"
    /\ (code res = 200%Z
        \/ (code res = 500%Z
            /\ field "error" res = Some (JStr "Failed to list models")
            /\ field "keyLoaded" res = Some (JBool true)))
    /\ (code res = 200%Z <->
        exists parsed,
          fst (Stub.never_fetch (list_models_url "AIzaSyExample") tt) = FetchReturns true parsed
          /\ nullish parsed = false).
Proof.
  apply (list_models_one_fetch Stub.never_fetch "AIzaSyExample" tt).
  discriminate.
Defined.

(** X9.  When the provider answers with an object, [models] and
    [totalModels] agree: an array under [models] is passed on with its
    length as the total, and a body without [models] gives an empty list and
    a total of 0. *)
Theorem list_models_total {World : Type}
    (fetch : string -> World -> fetch_outcome * World) (k : string) (w w1 : World)
    (fields : list (string * jsval)) :
  k <> "" ->
  fetch (list_models_url k) w = (FetchReturns true (JObj fields), w1) ->
  (forall items,
     lookup "models" fields = Some (JArr items) ->
     list_models fetch (Some k) w
     = (json [ ("success", JBool true);
               ("models", JArr items);
               ("totalModels", JNum (Z.of_nat (List.length items))) ],
        w1, [EvFetch (list_models_url k)]))
  /\ (lookup "models" fields = None ->
      list_models fetch (Some k) w
      = (json [ ("success", JBool true);
                ("models", JArr []);
                ("totalModels", JNum 0) ],
         w1, [EvFetch (list_models_url k)])).
Proof.
  intros Hk Hfetch. unfold list_models, list_models_try.
  rewrite (keyLoaded_nonempty k Hk), Hfetch. cbn [negb nullish prop].
  split.
  - intros items Hitems. rewrite Hitems. cbn [nullish prop].
    replace (String.eqb "length" "length") with true by reflexivity.
    unfold or_else. cbn [truthy].
    destruct (Z.of_nat (List.length items) =? 0)%Z eqn:Hz; cbn [negb]; [|reflexivity].
    apply Z.eqb_eq in Hz. rewrite Hz. reflexivity.
  - intros Hnone. rewrite Hnone. reflexivity.
Qed.

Lemma list_models_total_witness :
  (forall items,
     lookup "models" [ ("models", JArr [JObj [ ("name", JStr "models/gemini-pro") ]]) ]
     = Some (JArr items) ->
     list_models
       (fun _ w => (FetchReturns true
                      (JObj [ ("models", JArr [JObj [ ("name", JStr "models/gemini-pro") ]]) ]), w))
       (Some "AIzaSyExample") tt
     = (json [ ("success", JBool true);
               ("models", JArr items);
               ("totalModels", JNum (Z.of_nat (List.length items))) ],
        tt, [EvFetch (list_models_url "AIzaSyExample")]))
  /\ (lookup "models" [ ("models", JArr [JObj [ ("name", JStr "models/gemini-pro") ]]) ] = None ->
      list_models
        (fun _ w => (FetchReturns true
                       (JObj [ ("models", JArr [JObj [ ("name", JStr "models/gemini-pro") ]]) ]), w))
        (Some "AIzaSyExample") tt
      = (json [ ("success", JBool true);
                ("models", JArr []);
                ("totalModels", JNum 0) ],
         tt, [EvFetch (list_models_url "AIzaSyExample")])).
Proof.
  apply (list_models_total
           (fun _ w => (FetchReturns true
                          (JObj [ ("models", JArr [JObj [ ("name", JStr "models/gemini-pro") ]]) ]), w))
           "AIzaSyExample" tt tt).
  - discriminate.
  - reflexivity.
Defined.

(** X10.  When the provider refuses the listing (a reply that is not
    [ok]) and its body carries [error.message], that message is what the
    route reports in [message]; without an [error] the route reports
    "Failed to list models". *)
Theorem list_models_reports_provider_message {World : Type}
    (fetch : string -> World -> fetch_outcome * World) (k : string) (w w1 : World)
    (fields : list (string * jsval)) :
  k <> "" ->
  fetch (list_models_url k) w = (FetchReturns false (JObj fields), w1) ->
  (forall errf msg,
     lookup "error" fields = Some (JObj errf) ->
     lookup "message" errf = Some (JStr msg) -> msg <> "" ->
     list_models fetch (Some k) w
     = (status_json 500 [ ("error", JStr "Failed to list models");
                          ("message", JStr msg);
                          ("keyLoaded", JBool true) ],
        w1, [EvFetch (list_models_url k)]))
  /\ (lookup "error" fields = None ->
      list_models fetch (Some k) w
      = (status_json 500 [ ("error", JStr "Failed to list models");
                           ("message", JStr "Failed to list models");
                           ("keyLoaded", JBool true) ],
         w1, [EvFetch (list_models_url k)])).
Proof.
  intros Hk Hfetch. unfold list_models, list_models_try.
  rewrite (keyLoaded_nonempty k Hk), Hfetch. cbn [negb nullish prop].
  split.
  - intros errf msg Herr Hmsg Hne. rewrite Herr. cbn [nullish prop]. rewrite Hmsg.
    destruct msg as [|a msg]; [congruence | reflexivity].
  - intros Hnone. rewrite Hnone. reflexivity.
Qed.

Lemma list_models_reports_provider_message_witness :
  list_models
    (fun _ w => (FetchReturns false
                   (JObj [ ("error", JObj [ ("code", JNum 400);
                                            ("message", JStr "API key not valid.") ]) ]), w))
    (Some "AIzaSyExample") tt
  = (status_json 500 [ ("error", JStr "Failed to list models");
                       ("message", JStr "API key not valid.");
                       ("keyLoaded", JBool true) ],
     tt, [EvFetch (list_models_url "AIzaSyExample")]).
Proof.
  apply (list_models_reports_provider_message
           (fun _ w => (FetchReturns false
                          (JObj [ ("error", JObj [ ("code", JNum 400);
                                                   ("message", JStr "API key not valid.") ]) ]), w))
           "AIzaSyExample" tt tt
           [ ("error", JObj [ ("code", JNum 400); ("message", JStr "API key not valid.") ]) ]
           ltac:(discriminate) eq_refl)
    with (errf := [ ("code", JNum 400); ("message", JStr "API key not valid.") ]).
  - reflexivity.
  - reflexivity.
  - discriminate.
Defined.

(** ** GET /api/test-key *)

Arguments test_models {World} generateContent k names lastErr w.

Section TestKey.

Context {World : Type}.
Variable generateContent : string -> string -> World -> outcome * World.

Lemma test_models_shape (k : string) :
  forall names lastErr w r w1 tr,
    test_models generateContent k names lastErr w = (r, w1, tr) ->
    (forall ev, In ev tr -> exists m o, ev = EvGenerate m "Say hello" o)
    /\ called_models tr = firstn (List.length tr) names
    /\ match r with
       | inl res =>
           exists pre m o t,
             tr = (pre ++ [EvGenerate m "Say hello" o])%list
             /\ hello_attempt o = Ok t
             /\ existsb answers_hello pre = false
             /\ res = json [ ("success", JBool true);
                             ("message", JStr "API key is working!");
                             ("workingModel", JStr m);
                             ("testResponse", JStr t);
                             ("keyLoaded", JBool true);
                             ("keyPreview", JStr (Js.substring0 10 k ++ "...")) ]
       | inr err =>
           existsb answers_hello tr = false
           /\ List.length tr = List.length names
           /\ ((names = [] /\ err = lastErr)
               \/ exists pre m o e,
                    tr = (pre ++ [EvGenerate m "Say hello" o])%list
                    /\ hello_attempt o = Throw e
                    /\ err = Some e)
       end.
Proof.
  induction names as [|m rest IH]; intros lastErr w r w1 tr Hrun; cbn [test_models] in Hrun.
  - injection Hrun as <- <- <-. split; [intros ev []|]. split; [reflexivity|].
    split; [reflexivity|]. split; [reflexivity|]. left. auto.
  - destruct (generateContent m "Say hello" w) as [o w2].
    change (match o with
            | Returns (Some r0) => text r0
            | Returns None => Throw (Error "Cannot read properties of undefined (reading 'text')")
            | Throws e => Throw e
            end) with (hello_attempt o) in Hrun.
    destruct (hello_attempt o) as [t|e] eqn:Hatt.
    + injection Hrun as <- <- <-.
      split; [intros ev [<- | []]; eauto|]. split; [reflexivity|].
      exists [], m, o, t. auto.
    + destruct (test_models generateContent k rest (Some e) w2) as [[r2 w3] tr2] eqn:Hrec.
      injection Hrun as <- <- <-.
      destruct (IH _ _ _ _ _ Hrec) as (Hev & Hcalled & Hr).
      assert (Hhead : answers_hello (EvGenerate m "Say hello" o) = false).
      { cbn [answers_hello]. rewrite Hatt. reflexivity. }
      split; [intros ev [<- | Hin]; eauto|].
      split; [cbn [called_models List.length firstn]; rewrite Hcalled; reflexivity|].
      destruct r2 as [res | err].
      * destruct Hr as (pre & m' & o' & t & -> & Ho' & Hpre & ->).
        exists (EvGenerate m "Say hello" o :: pre), m', o', t.
        split; [reflexivity|]. split; [exact Ho'|].
        split; [cbn [existsb]; rewrite Hhead, Hpre; reflexivity | reflexivity].
      * destruct Hr as (Hno & Hlen & Hlast).
        split; [cbn [existsb]; rewrite Hhead, Hno; reflexivity|].
        split; [cbn [List.length]; rewrite Hlen; reflexivity|].
        right. destruct Hlast as [[-> ->] | (pre & m' & o' & e' & -> & Ho' & ->)].
        -- destruct tr2; [|discriminate Hlen]. exists [], m, o, e. auto.
        -- exists (EvGenerate m "Say hello" o :: pre), m', o', e'. auto.
Qed.

(** X11.  With a key, /api/test-key sends "Say hello" to the models of its
    list, one call each, in the order of the list, and stops at the first
    one that answers with a text: the reply is then 200 and names that model
    and that text, and no model before it answered.  When none of the seven
    answers, the reply is 500 "API key test failed" with [keyLoaded: true]
    and the message and status of the error of the last model. *)
Theorem test_key_first_working_model (k : string) (w w1 : World)
    (res : http_response) (tr : list event) :
  k <> "" ->
  test_key generateContent (Some k) w = (res, w1, tr) ->
  (forall ev, In ev tr -> exists m o, ev = EvGenerate m "Say hello" o)
  /\ called_models tr = firstn (List.length tr) testModelNames
  /\ ((exists pre m o t,
         tr = (pre ++ [EvGenerate m "Say hello" o])%list
         /\ hello_attempt o = Ok t
         /\ existsb answers_hello pre = false
         /\ code res = 200%Z
         /\ field "workingModel" res = Some (JStr m)
         /\ field "testResponse" res = Some (JStr t))
      \/ (exists pre m o e,
            tr = (pre ++ [EvGenerate m "Say hello" o])%list
            /\ hello_attempt o = Throw e
            /\ existsb answers_hello tr = false
            /\ List.length tr = 7%nat
            /\ code res = 500%Z
            /\ field "error" res = Some (JStr "API key test failed")
            /\ field "message" res = Some (of_option_string (message e))
            /\ field "status" res = Some (of_option_Z (status e))
            /\ field "keyLoaded" res = Some (JBool true))).
Proof.
  intros Hk. unfold test_key.
  pose proof (keyLoaded_nonempty k Hk) as Hkey. rewrite Hkey. cbn [negb].
  destruct (test_models generateContent k testModelNames None w) as [[r w2] tr2] eqn:Hrun.
  destruct (test_models_shape k _ _ _ _ _ _ Hrun) as (Hev & Hcalled & Hr).
  destruct r as [res' | err].
  - intros H. injection H as <- <- <-.
    split; [exact Hev|]. split; [exact Hcalled|]. left.
    destruct Hr as (pre & m & o & t & -> & Ho & Hpre & ->).
    exists pre, m, o, t. repeat split; auto.
  - destruct Hr as (Hno & Hlen & [[Hnil _] | (pre & m & o & e & -> & Ho & ->)]);
      [discriminate Hnil|].
    intros H. injection H as <- <- <-.
    split; [exact Hev|]. split; [exact Hcalled|]. right.
    exists pre, m, o, e.
    split; [reflexivity|]. split; [exact Ho|]. split; [exact Hno|]. split; [exact Hlen|].
    unfold test_key_failed, field. cbn [code body status_json lookup String.eqb].
    rewrite Hkey. repeat split.
Qed.

End TestKey.

Lemma test_key_first_working_model_witness :
  exists res tr,
    test_key (Stub.by_model (fun m => if String.eqb m "gemini-pro"
                                      then Returns (Some (Stub.answer [Stub.text_part] "Hello!"))
                                      else Throws Stub.missing_error))
             (Some "AIzaSyExample") tt = (res, tt, tr)
    /\ called_models tr = [ "gemini-2.5-flash-image-preview"; "gemini"; "gemini-pro" ]
    /\ code res = 200%Z
    /\ field "workingModel" res = Some (JStr "gemini-pro").
Proof.
  destruct (test_key_first_working_model
              (Stub.by_model (fun m => if String.eqb m "gemini-pro"
                                       then Returns (Some (Stub.answer [Stub.text_part] "Hello!"))
                                       else Throws Stub.missing_error))
              "AIzaSyExample" tt tt _ _ ltac:(discriminate) eq_refl) as (_ & Hcalled & _).
  eexists. eexists. split; [reflexivity|].
  split; [exact Hcalled|]. split; reflexivity.
Defined.

(** ** Trimming *)

Lemma string_app_assoc (a b c : string) : ((a ++ b) ++ c = a ++ (b ++ c))%string.
Proof.
  induction a as [|x a IH]; cbn; [reflexivity | rewrite IH; reflexivity].
Qed.

Lemma string_app_empty_r (a : string) : (a ++ "")%string = a.
Proof.
  induction a as [|x a IH]; cbn; [reflexivity | rewrite IH; reflexivity].
Qed.

Lemma rev_append_spec (s acc : string) :
  Js.rev_append s acc = (Js.rev s ++ acc)%string.
Proof.
  unfold Js.rev. revert acc.
  induction s as [|c t IH]; intros acc; cbn [Js.rev_append]; [reflexivity|].
  rewrite (IH (String c acc)), (IH (String c "")), string_app_assoc. reflexivity.
Qed.

Lemma rev_cons (c : ascii) (t : string) :
  Js.rev (String c t) = (Js.rev t ++ String c "")%string.
Proof.
  unfold Js.rev at 1. cbn [Js.rev_append]. apply rev_append_spec.
Qed.

Lemma rev_app (a b : string) : Js.rev (a ++ b) = (Js.rev b ++ Js.rev a)%string.
Proof.
  induction a as [|c a IH]; cbn [append].
  - rewrite string_app_empty_r. reflexivity.
  - rewrite !rev_cons, IH, string_app_assoc. reflexivity.
Qed.

Lemma rev_involutive (s : string) : Js.rev (Js.rev s) = s.
Proof.
  induction s as [|c t IH]; [reflexivity|].
  rewrite rev_cons, rev_app, IH. reflexivity.
Qed.

Lemma trimStart_split (s : string) :
  exists pre, s = (pre ++ Js.trimStart s)%string /\ whitespace_only pre = true.
Proof.
  induction s as [|c t (pre & Ht & Hpre)]; cbn [Js.trimStart].
  - exists "". auto.
  - destruct (Js.is_white c) eqn:Hc.
    + exists (String c pre). cbn [append whitespace_only]. rewrite Hc, Hpre, <- Ht. auto.
    + exists "". auto.
Qed.

Lemma trimStart_clean (s : string) : starts_clean (Js.trimStart s) = true.
Proof.
  induction s as [|c t IH]; cbn [Js.trimStart]; [reflexivity|].
  destruct (Js.is_white c) eqn:Hc; [exact IH|]. cbn [starts_clean]. rewrite Hc. reflexivity.
Qed.

Lemma trimStart_fixed (s : string) : starts_clean s = true -> Js.trimStart s = s.
Proof.
  destruct s as [|c t]; cbn [starts_clean Js.trimStart]; [reflexivity|].
  destruct (Js.is_white c); [discriminate | reflexivity].
Qed.

Lemma starts_clean_app (a b : string) :
  a <> "" -> starts_clean (a ++ b) = true -> starts_clean a = true.
Proof.
  destruct a as [|c a]; [congruence|]. cbn. auto.
Qed.

(** Trimming a trimmed string changes nothing. *)
Lemma trim_idempotent (s : string) : Js.trim (Js.trim s) = Js.trim s.
Proof.
  unfold Js.trim at 2. unfold Js.trimEnd.
  set (a := Js.trimStart s). set (b := Js.trimStart (Js.rev a)).
  assert (Hb : starts_clean b = true) by apply trimStart_clean.
  assert (Hrb : starts_clean (Js.rev b) = true).
  { destruct b as [|c b'] eqn:Eb; [reflexivity|].
    destruct (trimStart_split (Js.rev a)) as (pre & Hsplit & _).
    fold b in Hsplit. rewrite Eb in Hsplit.
    assert (Ha : a = (Js.rev (String c b') ++ Js.rev pre)%string).
    { rewrite <- rev_app, <- Hsplit, rev_involutive. reflexivity. }
    apply (starts_clean_app (Js.rev (String c b')) (Js.rev pre)).
    - intros Hnil. pose proof (rev_involutive (String c b')) as Hinv.
      rewrite Hnil in Hinv. discriminate Hinv.
    - rewrite <- Ha. apply trimStart_clean. }
  unfold Js.trim, Js.trimEnd.
  rewrite (trimStart_fixed _ Hrb), rev_involutive, (trimStart_fixed _ Hb). reflexivity.
Qed.

(** ** The page and the relay together *)

Lemma reply_of_shape (p : string) (r : result gen_response) :
  let res := reply_of (x <- r ;; respond p x) in
  (exists mime payload,
     mime <> "" /\ payload <> ""
     /\ res = mkResponse 200 [ ("success", JBool true);
                               ("image", JStr ("data:" ++ mime ++ ";base64," ++ payload));
                               ("prompt", JStr p) ])
  \/ (In (code res) [401; 404; 429; 500; 501]%Z
      /\ exists s rest, body res = ("error", JStr s) :: rest /\ s <> "").
Proof.
  cbn zeta.
  destruct (x <- r ;; respond p x) as [res|e] eqn:Hres; cbn [reply_of].
  - destruct r as [x|e]; cbn [bind] in Hres; [|discriminate].
    destruct (respond_shape p x res Hres) as [(mime & payload & Hm & Hp & ->) | (t & _ & ->)].
    + left. exists mime, payload. auto.
    + right. split; [cbn; tauto|]. eexists. eexists. split; [reflexivity | discriminate].
  - right. destruct (handle_error_shape e) as [Hcode Herr].
    split; [|exact Herr].
    destruct Hcode as [-> | [-> | [-> | ->]]]; cbn; tauto.
Qed.

Lemma accepted_reply_shape {World : Type}
    (generateContent : string -> string -> World -> outcome * World)
    (apiKey : option string) (fuel : nat) (req_body : jsval) (p : string)
    (w w1 : World) (res : http_response) (tr : list event) :
  accepted_prompt req_body p ->
  generate generateContent apiKey fuel req_body w = Some (res, w1, tr) ->
  (exists mime payload,
     mime <> "" /\ payload <> ""
     /\ res = mkResponse 200 [ ("success", JBool true);
                               ("image", JStr ("data:" ++ mime ++ ";base64," ++ payload));
                               ("prompt", JStr p) ])
  \/ (In (code res) [401; 404; 429; 500; 501]%Z
      /\ exists s rest, body res = ("error", JStr s) :: rest /\ s <> "").
Proof.
  intros Hacc Hrun.
  destruct (keyLoaded apiKey) eqn:Hkey.
  - rewrite (generate_runs_loop generateContent apiKey fuel req_body p w Hacc Hkey) in Hrun.
    destruct (try_models generateContent fuel modelNames p initial w) as [[[st w2] tr2]|];
      [|discriminate].
    injection Hrun as <- <- <-. apply reply_of_shape.
  - destruct (accepted_prompt_truthy _ _ Hacc) as [Htruthy Hlen].
    destruct Hacc as (Hbody & Hp & _).
    unfold generate, generate_try in Hrun.
    rewrite Hbody, Htruthy, Hp, Hlen, Hkey in Hrun. cbn [negb] in Hrun.
    injection Hrun as <- <- <-. right.
    split; [cbn; tauto|]. eexists. eexists. split; [reflexivity | discriminate].
Qed.

Lemma posted_body_accepted (d : dom) :
  Js.trim (promptInput_value d) <> "" ->
  accepted_prompt (posted_body d) (Js.trim (promptInput_value d)).
Proof.
  intros Hne. split; [reflexivity|]. split; [reflexivity|].
  rewrite trim_idempotent. exact Hne.
Qed.

(** X12.  What the page posts is never rejected as blank: the prompt it
    sends is the trimmed text of the form, and for a text that is not blank
    the relay accepts it, so that its reply never has status 400. *)
Theorem page_prompt_is_accepted {World : Type}
    (generateContent : string -> string -> World -> outcome * World)
    (apiKey : option string) (fuel : nat) (d : dom)
    (w w1 : World) (res : http_response) (tr : list event) :
  Js.trim (promptInput_value d) <> "" ->
  generate generateContent apiKey fuel (posted_body d) w = Some (res, w1, tr) ->
  accepted_prompt (posted_body d) (Js.trim (promptInput_value d))
  /\ code res <> 400%Z.
Proof.
  intros Hne Hrun. pose proof (posted_body_accepted d Hne) as Hacc.
  split; [exact Hacc|].
  destruct (accepted_reply_shape generateContent apiKey fuel _ _ w w1 res tr Hacc Hrun)
    as [(mime & payload & _ & _ & ->) | (Hcode & _)].
  - discriminate.
  - cbn [In] in Hcode. intros H400. rewrite H400 in Hcode.
    destruct Hcode as [H | [H | [H | [H | [H | []]]]]]; discriminate H.
Qed.

Lemma page_prompt_is_accepted_witness :
  accepted_prompt (posted_body Stub.page) (Js.trim (promptInput_value Stub.page))
  /\ code (handle_error Stub.quota_error) <> 400%Z.
Proof.
  eapply (page_prompt_is_accepted (Stub.always (Throws Stub.quota_error)) Stub.key 3
            Stub.page tt tt (handle_error Stub.quota_error)).
  - vm_compute. discriminate.
  - reflexivity.
Defined.

(** X13.  A form whose text is blank sends nothing: whatever [fetch]
    would do, the world is left as it was, the message "Please enter a
    prompt" is shown, and neither the button nor the result panel
    changes. *)
Theorem blank_form_sends_nothing {World : Type}
    (post : string -> jsval -> World -> fetch_outcome * World) (d : dom) (w : World) :
  whitespace_only (promptInput_value d) = true ->
  exists d',
    submit post d w = (d', w)
    /\ errorMessage_textContent d' = "Please enter a prompt"
    /\ errorMessage_display d' = "block"
    /\ generateBtn_disabled d' = generateBtn_disabled d
    /\ resultContainer_display d' = resultContainer_display d.
Proof.
  intros Hblank. unfold submit.
  rewrite (trim_whitespace_only _ Hblank). cbn [Js.nonempty negb].
  eexists. split; [reflexivity|]. repeat split.
Qed.

Lemma blank_form_sends_nothing_witness :
  exists d',
    submit Stub.never_fetch_post (mkDom "   " false "inline" "none" "block" "none" "" "x" "y") tt
    = (d', tt)
    /\ errorMessage_textContent d' = "Please enter a prompt"
    /\ errorMessage_display d' = "block"
    /\ generateBtn_disabled d' = false
    /\ resultContainer_display d' = "block".
Proof.
  apply (blank_form_sends_nothing Stub.never_fetch_post
           (mkDom "   " false "inline" "none" "block" "none" "" "x" "y") tt).
  reflexivity.
Defined.

(** X14.  After a request that has settled, exactly one of the two panels
    of the page is visible: the result panel, or the error box, and the
    error box never shows an empty text. *)
Theorem one_panel_after_request {World : Type}
    (post : string -> jsval -> World -> fetch_outcome * World) (d : dom) (w : World) :
  Js.trim (promptInput_value d) <> "" ->
  let d' := fst (submit post d w) in
  (resultContainer_display d' = "block" /\ errorMessage_display d' = "none")
  \/ (resultContainer_display d' = "none" /\ errorMessage_display d' = "block"
      /\ errorMessage_textContent d' <> "").
Proof.
  intros Hne. cbn zeta. unfold submit.
  destruct (Js.trim (promptInput_value d)) as [|c t] eqn:Htrim; [congruence|].
  cbn [Js.nonempty negb].
  destruct (post "/api/generate" (JObj [ ("prompt", JStr (String c t)) ]) w) as [o w1].
  cbn [fst].
  destruct (render (String c t) o (show_loading d)) as [d1|e] eqn:Hrender.
  - left. unfold render in Hrender.
    destruct o as [e | ok parsed]; [discriminate|].
    destruct (negb ok); [destruct (nullish parsed); discriminate|].
    destruct (nullish parsed); [discriminate|].
    destruct (truthy (prop "image" parsed)); [|discriminate].
    injection Hrender as <-.
    destruct (prop "image" parsed) as [| |b|z|src|items|fields]; cbn;
      repeat match goal with |- context [if ?c then _ else _] => destruct c end;
      split; reflexivity.
  - right. cbn. split; [reflexivity|]. split; [reflexivity|].
    destruct (message e) as [[|a m]|]; cbn [Js.nonempty]; discriminate.
Qed.

Lemma one_panel_after_request_witness :
  (resultContainer_display (fst (submit Stub.never_fetch_post Stub.page tt)) = "block"
   /\ errorMessage_display (fst (submit Stub.never_fetch_post Stub.page tt)) = "none")
  \/ (resultContainer_display (fst (submit Stub.never_fetch_post Stub.page tt)) = "none"
      /\ errorMessage_display (fst (submit Stub.never_fetch_post Stub.page tt)) = "block"
      /\ errorMessage_textContent (fst (submit Stub.never_fetch_post Stub.page tt)) <> "").
Proof.
  apply (one_panel_after_request Stub.never_fetch_post Stub.page tt).
  vm_compute. discriminate.
Defined.

Section PageAndRelay.

Context {World Server : Type}.
Variable post : string -> jsval -> World -> fetch_outcome * World.
Variable generateContent : string -> string -> Server -> outcome * Server.
Variable apiKey : option string.

(** X15.  When the relay answers the page's request with a status other
    than 200, the error box shows the [error] field of that reply, the
    result panel stays hidden and the button is enabled again. *)
Theorem page_shows_relay_error (fuel : nat) (d : dom) (w w' : World)
    (ws ws' : Server) (res : http_response) (tr : list event) :
  Js.trim (promptInput_value d) <> "" ->
  generate generateContent apiKey fuel (posted_body d) ws = Some (res, ws', tr) ->
  post "/api/generate" (posted_body d) w = (as_fetched res, w') ->
  code res <> 200%Z ->
  exists s d',
    field "error" res = Some (JStr s)
    /\ submit post d w = (d', w')
    /\ errorMessage_textContent d' = s
    /\ errorMessage_display d' = "block"
    /\ resultContainer_display d' = "none"
    /\ generateBtn_disabled d' = false.
Proof.
  intros Hne Hrun Hpost Hcode.
  pose proof (posted_body_accepted d Hne) as Hacc.
  destruct (accepted_reply_shape generateContent apiKey fuel _ _ ws ws' res tr Hacc Hrun)
    as [(mime & payload & _ & _ & ->) | (Hin & s & rest & Hbody & Hs)];
    [exfalso; apply Hcode; reflexivity|].
  exists s. unfold submit.
  destruct (Js.trim (promptInput_value d)) as [|c t] eqn:Htrim; [congruence|].
  cbn [Js.nonempty negb].
  unfold posted_body in Hpost. rewrite Htrim in Hpost. rewrite Hpost.
  assert (Hok : ((200 <=? code res) && (code res <=? 299))%Z = false).
  { cbn [In] in Hin.
    destruct Hin as [H | [H | [H | [H | [H | []]]]]]; rewrite <- H; reflexivity. }
  unfold as_fetched, render. rewrite Hok, Hbody.
  cbn [nullish negb defined_fields filter snd prop lookup].
  replace (String.eqb "error" "error") with true by reflexivity.
  unfold or_else. cbn [truthy to_string].
  destruct s as [|a s']; [congruence|]. cbn [Js.nonempty].
  eexists. split; [unfold field; rewrite Hbody; reflexivity|].
  split; [reflexivity|]. repeat split.
Qed.

(** X16.  When the relay answers the page's request with status 200, the
    picture of the page is the data URI of the reply, the prompt shown is
    the trimmed text of the form, the result panel is visible and the error
    box hidden. *)
Theorem page_shows_relay_image (fuel : nat) (d : dom) (w w' : World)
    (ws ws' : Server) (res : http_response) (tr : list event) :
  Js.trim (promptInput_value d) <> "" ->
  generate generateContent apiKey fuel (posted_body d) ws = Some (res, ws', tr) ->
  post "/api/generate" (posted_body d) w = (as_fetched res, w') ->
  code res = 200%Z ->
  exists uri d',
    field "image" res = Some (JStr uri)
    /\ submit post d w = (d', w')
    /\ generatedImage_src d' = uri
    /\ promptDisplay_textContent d' = Js.trim (promptInput_value d)
    /\ resultContainer_display d' = "block"
    /\ errorMessage_display d' = "none"
    /\ generateBtn_disabled d' = false.
Proof.
  intros Hne Hrun Hpost Hcode.
  pose proof (posted_body_accepted d Hne) as Hacc.
  destruct (accepted_reply_shape generateContent apiKey fuel _ _ ws ws' res tr Hacc Hrun)
    as [(mime & payload & _ & _ & ->) | (Hin & _)].
  - exists ("data:" ++ mime ++ ";base64," ++ payload). unfold submit.
    destruct (Js.trim (promptInput_value d)) as [|c t] eqn:Htrim; [congruence|].
    cbn [Js.nonempty negb].
    unfold posted_body in Hpost. rewrite Htrim in Hpost. rewrite Hpost.
    eexists. split; [reflexivity|]. split; [reflexivity|]. repeat split.
  - exfalso. rewrite Hcode in Hin. cbn [In] in Hin.
    destruct Hin as [H | [H | [H | [H | [H | []]]]]]; discriminate H.
Qed.

End PageAndRelay.

Lemma page_shows_relay_error_witness :
  exists s d',
    field "error" (handle_error Stub.quota_error) = Some (JStr s)
    /\ submit (fun _ _ w => (as_fetched (handle_error Stub.quota_error), w)) Stub.page tt
       = (d', tt)
    /\ errorMessage_textContent d' = s
    /\ errorMessage_display d' = "block"
    /\ resultContainer_display d' = "none"
    /\ generateBtn_disabled d' = false.
Proof.
  eapply (page_shows_relay_error
            (fun _ _ w => (as_fetched (handle_error Stub.quota_error), w))
            (Stub.always (Throws Stub.quota_error)) Stub.key 3 Stub.page tt tt tt tt).
  - vm_compute. discriminate.
  - reflexivity.
  - reflexivity.
  - vm_compute. discriminate.
Defined.

Lemma page_shows_relay_image_witness :
  exists uri d',
    field "image" (mkResponse 200 [ ("success", JBool true);
                                    ("image", JStr "data:image/png;base64,AAAA");
                                    ("prompt", JStr "a cat") ]) = Some (JStr uri)
    /\ submit (fun _ _ w =>
                 (as_fetched (mkResponse 200 [ ("success", JBool true);
                                               ("image", JStr "data:image/png;base64,AAAA");
                                               ("prompt", JStr "a cat") ]), w))
              Stub.page tt = (d', tt)
    /\ generatedImage_src d' = uri
    /\ promptDisplay_textContent d' = Js.trim (promptInput_value Stub.page)
    /\ resultContainer_display d' = "block"
    /\ errorMessage_display d' = "none"
    /\ generateBtn_disabled d' = false.
Proof.
  eapply (page_shows_relay_image
            (fun _ _ w =>
               (as_fetched (mkResponse 200 [ ("success", JBool true);
                                             ("image", JStr "data:image/png;base64,AAAA");
                                             ("prompt", JStr "a cat") ]), w))
            (Stub.always (Returns (Some (Stub.answer [Stub.text_part; Stub.png_part] ""))))
            Stub.key 1 Stub.page tt tt tt tt).
  - vm_compute. discriminate.
  - reflexivity.
  - reflexivity.
  - reflexivity.
Defined.

(** * The retry rule, event by event *)


Section Candidates.

Context {World : Type}.
Variable generateContent : string -> string -> World -> outcome * World.



End Candidates.



(** The test [quotaError && !lastError] of line 273 never holds after the
    loop: a loop that ends without a response has set [lastError]. *)
Lemma quota_only_branch_dead {World : Type}
    (generateContent : string -> string -> World -> outcome * World)
    (fuel : nat) (p : string) (w w1 : World) (st : loop_state) (tr : list event) :
  try_models generateContent fuel modelNames p initial w = Some (st, w1, tr) ->
  response st = None ->
  lastError st <> None.
Proof.
  intros Hrun Hnone.
  destruct (try_models_answer generateContent fuel p modelNames initial w st w1 tr eq_refl Hrun)
    as [[_ Hno] | (pre & m & r & _ & _ & _ & Hr & _)]; [|congruence].
  destruct (try_models_last_error generateContent fuel p modelNames initial w st w1 tr
              Hrun eq_refl (no_answer_In tr Hno)) as [_ Hlast].
  destruct (Hlast ltac:(discriminate)) as (e & He & _). congruence.
Qed.
